(** * Entropy server (PyRand/entropy_server.py): pool, seed extraction, refresh

    A shallow embedding of the entropy pool manager of the Silent secure
    messenger: the digest functions the server calls ([hashlib.sha256],
    [hashlib.sha512]), the Python builtins it relies on (slices, [bytes.fromhex],
    [bytes.hex], [int]), the shared state guarded by [entropy_lock], and the
    functions [process_video] (its condensing tail), [generate_entropy_seed],
    [refresh_entropy_pool], [background_entropy_refresh] and [get_seed]. *)

From Stdlib Require Import String Ascii List ZArith NArith Lia Bool QArith.
From Stdlib Require Import Qround Lqa.
From Stdlib Require Import Init.Byte.
From Equations Require Import Equations.
Import ListNotations.

Set Implicit Arguments.
#[local] Set Warnings "-register-all".
Local Open Scope Z_scope.

(** ** Bytes *)

Abbreviation bytes := (list byte).

Module Bytes.

Definition to_Z (b : byte) : Z := Z.of_N (Byte.to_N b).

Definition of_Z (z : Z) : byte :=
  match Byte.of_N (Z.to_N (z mod 256)) with
  | Some b => b
  | None => x00
  end.

(** [a ^ b] on two Python ints that are bytes. *)
Definition xor (a b : byte) : byte := of_Z (Z.lxor (to_Z a) (to_Z b)).

(** Big-endian reading and writing of machine words. *)
Definition be_to_Z (l : bytes) : Z :=
  fold_left (fun acc b => acc * 256 + to_Z b) l 0.

Fixpoint Z_to_be (n : nat) (x : Z) : bytes :=
  match n with
  | O => []
  | S n' => of_Z (Z.shiftr x (8 * Z.of_nat n')) :: Z_to_be n' x
  end.

(** [bytes(n)] and [bytearray(n)]: n zero bytes. *)
Definition zeros (n : nat) : bytes := repeat x00 n.

(** Split a buffer in consecutive pieces of [n] elements, the last one
    possibly shorter. *)
Fixpoint chunks_fuel {A} (fuel n : nat) (l : list A) : list (list A) :=
  match fuel with
  | O => []
  | S fuel' =>
      match l with
      | [] => []
      | _ => firstn n l :: chunks_fuel fuel' n (skipn n l)
      end
  end.

Definition chunks {A} (n : nat) (l : list A) : list (list A) :=
  chunks_fuel (length l) n l.

End Bytes.

(** ** SHA-2 (FIPS 180-4), the functions behind [hashlib.sha256] and
    [hashlib.sha512] *)

Module SHA2.

Record params := {
  wbits : Z;                       (* word size: 32 or 64 *)
  rounds : nat;                    (* 64 or 80 *)
  K : list Z;                      (* round constants *)
  H0 : Z * Z * Z * Z * Z * Z * Z * Z;
  big0 : Z * Z * Z;                (* rotations of Sigma0 *)
  big1 : Z * Z * Z;                (* rotations of Sigma1 *)
  small0 : Z * Z * Z;              (* rotr, rotr, shr of sigma0 *)
  small1 : Z * Z * Z               (* rotr, rotr, shr of sigma1 *)
}.

Section Generic.
Variable P : params.

Definition wbytes : nat := Z.to_nat (wbits P / 8).
Definition block_bytes : nat := (16 * wbytes)%nat.

Definition wrap (x : Z) : Z := x mod 2 ^ wbits P.
Definition add (x y : Z) : Z := wrap (x + y).
Definition rotr (n x : Z) : Z :=
  Z.lor (Z.shiftr x n) (wrap (Z.shiftl x (wbits P - n))).
Definition lnot (x : Z) : Z := Z.lxor x (2 ^ wbits P - 1).

Definition Ch (x y z : Z) : Z := Z.lxor (Z.land x y) (Z.land (lnot x) z).
Definition Maj (x y z : Z) : Z :=
  Z.lxor (Z.lxor (Z.land x y) (Z.land x z)) (Z.land y z).

Definition bigsigma (r : Z * Z * Z) (x : Z) : Z :=
  let '(a, b, c) := r in Z.lxor (Z.lxor (rotr a x) (rotr b x)) (rotr c x).
Definition smallsigma (r : Z * Z * Z) (x : Z) : Z :=
  let '(a, b, c) := r in Z.lxor (Z.lxor (rotr a x) (rotr b x)) (Z.shiftr x c).

(** Padding: 0x80, zeros, then the bit length on [2 * wbytes] bytes. *)
Definition pad (msg : bytes) : bytes :=
  let len := Z.of_nat (length msg) in
  let lenfield := Z.of_nat (2 * wbytes) in
  let k := (- (len + 1 + lenfield)) mod (Z.of_nat block_bytes) in
  msg ++ [x80] ++ Bytes.zeros (Z.to_nat k)
      ++ Bytes.Z_to_be (2 * wbytes) (8 * len).

Definition block_words (blk : bytes) : list Z :=
  map Bytes.be_to_Z (Bytes.chunks wbytes blk).

(** Message schedule: [win] holds W[t] .. W[t+15]. *)
Fixpoint schedule (n : nat) (win : list Z) : list Z :=
  match n with
  | O => []
  | S n' =>
      match win with
      | [] => []
      | w0 :: rest =>
          let w1 := nth 0 rest 0 in
          let w9 := nth 8 rest 0 in
          let w14 := nth 13 rest 0 in
          let new := add (add (add (smallsigma (small1 P) w14) w9)
                              (smallsigma (small0 P) w1)) w0 in
          w0 :: schedule n' (rest ++ [new])
      end
  end.

Definition state := (Z * Z * Z * Z * Z * Z * Z * Z)%type.

Definition round (s : state) (kw : Z * Z) : state :=
  let '(a, b, c, d, e, f, g, h) := s in
  let '(k, wt) := kw in
  let t1 := add (add (add (add h (bigsigma (big1 P) e)) (Ch e f g)) k) wt in
  let t2 := add (bigsigma (big0 P) a) (Maj a b c) in
  (add t1 t2, a, b, c, add d t1, e, f, g).

Definition compress (s : state) (blk : bytes) : state :=
  let ws := schedule (rounds P) (block_words blk) in
  let '(a, b, c, d, e, f, g, h) := fold_left round (combine (K P) ws) s in
  let '(a0, b0, c0, d0, e0, f0, g0, h0) := s in
  (add a0 a, add b0 b, add c0 c, add d0 d,
   add e0 e, add f0 f, add g0 g, add h0 h).

Definition serialize (s : state) : bytes :=
  let '(a, b, c, d, e, f, g, h) := s in
  flat_map (Bytes.Z_to_be wbytes) [a; b; c; d; e; f; g; h].

Definition digest (msg : bytes) : bytes :=
  serialize (fold_left compress (Bytes.chunks block_bytes (pad msg)) (H0 P)).

End Generic.

(** The constants are defined as FIPS 180-4 defines them: the first [w] bits
    of the fractional parts of the cube roots (round constants) and square
    roots (initial hash value) of the first primes. *)

Definition is_prime (n : Z) : bool :=
  forallb (fun d => negb (n mod Z.of_nat d =? 0)) (seq 2 (Z.to_nat n - 2)).

Definition primes (count : nat) : list Z :=
  firstn count (filter is_prime (map Z.of_nat (seq 2 408))).

(** Integer [k]-th root of [n], one bit at a time from the top. *)
Fixpoint root_bits (k n : Z) (bits : nat) (r : Z) : Z :=
  match bits with
  | O => r
  | S b =>
      let r' := r + 2 ^ Z.of_nat b in
      root_bits k n b (if r' ^ k <=? n then r' else r)
  end.

Definition frac_root (k w p : Z) : Z :=
  root_bits k (p * 2 ^ (k * w)) (Z.to_nat w + 4) 0 mod 2 ^ w.

Definition round_constants (w : Z) (n : nat) : list Z :=
  map (frac_root 3 w) (primes n).

Definition initial_hash (w : Z) : Z * Z * Z * Z * Z * Z * Z * Z :=
  match map (frac_root 2 w) (primes 8) with
  | [a; b; c; d; e; f; g; h] => (a, b, c, d, e, f, g, h)
  | _ => (0, 0, 0, 0, 0, 0, 0, 0)
  end.

Definition sha256_K : list Z := Eval vm_compute in round_constants 32 64.
Definition sha256_H0 := Eval vm_compute in initial_hash 32.
Definition sha512_K : list Z := Eval vm_compute in round_constants 64 80.
Definition sha512_H0 := Eval vm_compute in initial_hash 64.

Definition sha256_params : params := {|
  wbits := 32; rounds := 64;
  K := sha256_K; H0 := sha256_H0;
  big0 := (2, 13, 22); big1 := (6, 11, 25);
  small0 := (7, 18, 3); small1 := (17, 19, 10) |}.

Definition sha512_params : params := {|
  wbits := 64; rounds := 80;
  K := sha512_K; H0 := sha512_H0;
  big0 := (28, 34, 39); big1 := (14, 18, 41);
  small0 := (1, 8, 7); small1 := (19, 61, 6) |}.

Definition sha256 : bytes -> bytes := digest sha256_params.
Definition sha512 : bytes -> bytes := digest sha512_params.

End SHA2.

(** ** The Python builtins the server uses *)

Module Py.

Inductive exn :=
| ValueError
| TypeError
| ZeroDivisionError
| AttributeError
| UnboundLocalError
| OSError.

Definition len {A} (l : list A) : Z := Z.of_nat (length l).

(** Slice bounds are clamped to the sequence, negative ones counting
    from the end. *)
Definition clamp (n i : Z) : Z :=
  if i <? 0 then Z.max 0 (n + i) else Z.min i n.

(** [l[:stop]] *)
Definition slice_to {A} (l : list A) (stop : Z) : list A :=
  firstn (Z.to_nat (clamp (len l) stop)) l.

(** [l[start:]] *)
Definition slice_from {A} (l : list A) (start : Z) : list A :=
  skipn (Z.to_nat (clamp (len l) start)) l.

(** [l[start:stop]] *)
Definition slice {A} (l : list A) (start stop : Z) : list A :=
  let a := clamp (len l) start in
  let b := clamp (len l) stop in
  firstn (Z.to_nat (b - a)) (skipn (Z.to_nat a) l).

(** [l * n] *)
Definition mul {A} (l : list A) (n : Z) : list A :=
  concat (repeat l (Z.to_nat n)).

(** [l[i] = v] for an index in range. *)
Fixpoint setitem {A} (l : list A) (i : nat) (v : A) : list A :=
  match l, i with
  | [], _ => []
  | _ :: r, O => v :: r
  | x :: r, S i' => x :: setitem r i' v
  end.

(** [str.encode()] on the ASCII strings of this program. *)
Definition encode (s : string) : bytes :=
  map byte_of_ascii (list_ascii_of_string s).

Definition code (c : ascii) : Z := Z.of_nat (nat_of_ascii c).

Definition hex_digit (n : Z) : ascii :=
  ascii_of_nat (Z.to_nat (if n <? 10 then 48 + n else 87 + n)).

(** [bytes.hex()] *)
Fixpoint hex (l : bytes) : string :=
  match l with
  | [] => EmptyString
  | b :: r =>
      String (hex_digit (Bytes.to_Z b / 16))
        (String (hex_digit (Bytes.to_Z b mod 16)) (hex r))
  end.

Definition hex_value (c : ascii) : option Z :=
  let n := code c in
  if (48 <=? n) && (n <=? 57) then Some (n - 48)
  else if (97 <=? n) && (n <=? 102) then Some (n - 87)
  else if (65 <=? n) && (n <=? 70) then Some (n - 55)
  else None.

(** ASCII whitespace: space, \t, \n, \v, \f, \r. *)
Definition is_space (c : ascii) : bool :=
  let n := code c in (n =? 32) || ((9 <=? n) && (n <=? 13)).

(** [bytes.fromhex(s)]: two hex digits per byte, whitespace skipped
    between bytes; [None] stands for ValueError. *)
Fixpoint fromhex (s : string) : option bytes :=
  match s with
  | EmptyString => Some []
  | String c r =>
      if is_space c then fromhex r
      else
        match hex_value c, r with
        | Some hi, String c2 r2 =>
            match hex_value c2 with
            | Some lo => option_map (cons (Bytes.of_Z (16 * hi + lo))) (fromhex r2)
            | None => None
            end
        | _, _ => None
        end
  end.

(** [int(s)] for a string: surrounding whitespace stripped, an optional
    sign, decimal digits with single underscores between them. *)
Fixpoint drop_space (l : list ascii) : list ascii :=
  match l with
  | c :: r => if is_space c then drop_space r else l
  | [] => []
  end.

Definition strip (l : list ascii) : list ascii :=
  rev (drop_space (rev (drop_space l))).

Fixpoint digits (acc : Z) (after_digit : bool) (l : list ascii) : option Z :=
  match l with
  | [] => if after_digit then Some acc else None
  | c :: r =>
      let n := code c in
      if (48 <=? n) && (n <=? 57) then digits (10 * acc + (n - 48)) true r
      else if (n =? 95) && after_digit then digits acc false r
      else None
  end.

Definition int_of_string (s : string) : option Z :=
  match strip (list_ascii_of_string s) with
  | c :: r =>
      if code c =? 45 then option_map Z.opp (digits 0 false r)
      else if code c =? 43 then digits 0 false r
      else digits 0 false (c :: r)
  | [] => None
  end.

(** Values produced by [request.get_json]. Numbers with a fractional part
    are left out of the model. *)
Inductive json :=
| JNull
| JBool (b : bool)
| JInt (z : Z)
| JStr (s : string)
| JArr (l : list json)
| JObj (d : list (string * json)).

(** Truth value of a JSON value in [if x:] and [x or y]. *)
Definition truthy (j : json) : bool :=
  match j with
  | JNull => false
  | JBool b => b
  | JInt z => negb (z =? 0)
  | JStr s => negb (String.eqb s EmptyString)
  | JArr l => match l with [] => false | _ => true end
  | JObj d => match d with [] => false | _ => true end
  end.

(** [d.get(key)] on a parsed object; the parser keeps the last of
    duplicate keys. *)
Fixpoint dict_get (d : list (string * json)) (key : string) : option json :=
  match d with
  | [] => None
  | (k, v) :: r =>
      match dict_get r key with
      | Some v' => Some v'
      | None => if String.eqb k key then Some v else None
      end
  end.

(** [d.get(key, default)]; [d.get(key)] is [d.get(key, None)], and None
    is the value a JSON null has. *)
Definition dict_get_default (d : list (string * json)) (key : string)
           (default : json) : json :=
  match dict_get d key with
  | Some v => v
  | None => default
  end.

(** [int(x)] *)
Definition int (j : json) : exn + Z :=
  match j with
  | JInt z => inr z
  | JBool b => inr (if b then 1 else 0)
  | JStr s => match int_of_string s with Some z => inr z | None => inl ValueError end
  | JNull | JArr _ | JObj _ => inl TypeError
  end.

End Py.

(** ** Floating-point subtraction *)

Module Float64.

(** Python's floats are binary64. A clock reading is kept as the
    rational number it denotes; the one operation the server applies to
    clock readings is a subtraction, which rounds the exact difference to
    the nearest binary64 value, ties to even. (A difference of clock
    readings is far from 2^1024, where binary64 overflows.) *)

(** Round half to even. *)
Definition rne (q : Q) : Z :=
  let f := Qfloor q in
  match Qcompare (q - inject_Z f) (1 # 2) with
  | Lt => f
  | Gt => f + 1
  | Eq => if Z.even f then f else f + 1
  end.

(** [q * 2 ^ k] *)
Definition scale (q : Q) (k : Z) : Q :=
  if 0 <=? k then (q * inject_Z (2 ^ k))%Q else (q / inject_Z (2 ^ (- k)))%Q.

(** [floor (log2 q)] for [q > 0]. *)
Definition ilog2 (q : Q) : Z :=
  let e := Z.log2 (Qnum q) - Z.log2 (Zpos (Qden q)) in
  if Qle_bool (scale 1 e) q then e else e - 1.

(** The binary64 value nearest to [q]: 53 significant bits, the unit in
    the last place never below [2 ^ -1074]. *)
Definition round64 (q : Q) : Q :=
  match Qcompare q 0 with
  | Eq => 0%Q
  | Gt =>
      let k := Z.max (ilog2 q) (-1022) - 52 in
      scale (inject_Z (rne (scale q (- k)))) k
  | Lt =>
      let k := Z.max (ilog2 (- q)) (-1022) - 52 in
      (- scale (inject_Z (rne (scale (- q) (- k)))) k)%Q
  end.

(** [x - y] on two floats. *)
Definition fsub (x y : Q) : Q := round64 (x - y).

End Float64.

(** ** The server state, its environment and the monad of its code *)

Module Server.

Import Py Float64.

Definition sha256 := SHA2.sha256.
Definition sha512 := SHA2.sha512.

(** [compute_hash(data, algorithm)] *)
Definition compute_hash (data : bytes) (algorithm : string) : bytes :=
  if String.eqb algorithm "sha256" then sha256 data
  else if String.eqb algorithm "sha512" then sha512 data
  else sha256 data.

(** Configuration. *)
Definition ENTROPY_POOL_SIZE : Z := 1024 * 1024.
Definition REFRESH_INTERVAL : Q := 300.
Definition API_KEYS_values : list string := ["development-only-key"%string].

(** The threads that touch [entropy_lock], by the names the code gives
    them; a request is served on a handler thread. *)
Inductive thread :=
| RequestHandler
| InitialRefresh
| BackgroundRefresh
| EntropyRefresh.

(** The log records the theorems observe. *)
Inductive log_record :=
| RefreshingEntropyPool            (* refresh_entropy_pool, on entry *)
| MaxRefreshTimeReached
| VideoThreadHung
| ErrorProcessingVideo (e : exn)
| NoVideoFiles
| ErrorRefreshingPool (e : exn)
| PoolDepleted                     (* generate_entropy_seed, fallback *)
| ClientEntropyFailed (e : exn)
| SkippingRefresh
| BackgroundRefreshTriggered
| UncaughtRefreshError (e : exn)
| RefreshThreadHung
| ManyConsecutiveFailures          (* background_entropy_refresh, line 599 *)
| PoolRatioInfo                    (* background_entropy_refresh, line 615 *)
| BackgroundError (e : exn)
| SeedRequest                      (* get_seed, line 649 *)
| FastPathResponse
| ErrorMixingClientEntropy (e : exn)
| ErrorGeneratingSeed (e : exn).

(** Module-level state, with the two counters that
    [background_entropy_refresh] shares with its refresh thread, the wall
    clock, and the number of values drawn from the environment so far. *)
Record World := mkWorld {
  entropy_pool : bytes;
  last_refresh_time : Q;
  entropy_lock : option thread;      (* [Some t]: held by thread t *)
  refresh_in_progress : bool;
  last_refresh_attempt : Q;
  consecutive_failures : Z;
  clock : Q;
  tick : nat;
  log : list log_record
}.

Definition set_pool (p : bytes) (w : World) : World :=
  mkWorld p (last_refresh_time w) (entropy_lock w) (refresh_in_progress w)
    (last_refresh_attempt w) (consecutive_failures w) (clock w) (tick w) (log w).
Definition set_last_refresh_time (q : Q) (w : World) : World :=
  mkWorld (entropy_pool w) q (entropy_lock w) (refresh_in_progress w)
    (last_refresh_attempt w) (consecutive_failures w) (clock w) (tick w) (log w).
Definition set_lock (l : option thread) (w : World) : World :=
  mkWorld (entropy_pool w) (last_refresh_time w) l (refresh_in_progress w)
    (last_refresh_attempt w) (consecutive_failures w) (clock w) (tick w) (log w).
Definition set_in_progress (b : bool) (w : World) : World :=
  mkWorld (entropy_pool w) (last_refresh_time w) (entropy_lock w) b
    (last_refresh_attempt w) (consecutive_failures w) (clock w) (tick w) (log w).
Definition set_last_refresh_attempt (q : Q) (w : World) : World :=
  mkWorld (entropy_pool w) (last_refresh_time w) (entropy_lock w) (refresh_in_progress w)
    q (consecutive_failures w) (clock w) (tick w) (log w).
Definition set_consecutive_failures (n : Z) (w : World) : World :=
  mkWorld (entropy_pool w) (last_refresh_time w) (entropy_lock w) (refresh_in_progress w)
    (last_refresh_attempt w) n (clock w) (tick w) (log w).
Definition set_clock (q : Q) (w : World) : World :=
  mkWorld (entropy_pool w) (last_refresh_time w) (entropy_lock w) (refresh_in_progress w)
    (last_refresh_attempt w) (consecutive_failures w) q (tick w) (log w).
Definition set_tick (n : nat) (w : World) : World :=
  mkWorld (entropy_pool w) (last_refresh_time w) (entropy_lock w) (refresh_in_progress w)
    (last_refresh_attempt w) (consecutive_failures w) (clock w) n (log w).
Definition add_log (r : log_record) (w : World) : World :=
  mkWorld (entropy_pool w) (last_refresh_time w) (entropy_lock w) (refresh_in_progress w)
    (last_refresh_attempt w) (consecutive_failures w) (clock w) (tick w) (log w ++ [r]).

(** What [cv2] makes of a video file: the bytes gathered from the sampled
    frames ([entropy_data] at line 228), or one of the early exits. *)
Inductive capture :=
| NoFile
| NotOpened
| Decoded (entropy_data : bytes)
| DecodeError.

(** Everything the code draws from outside: the byte stream behind
    [os.urandom], the readings [collect_system_entropy] concatenates before
    its urandom block (or the exception it dies with), the text of
    timestamps and random floats, shuffles, and for each video what the
    decoder yields and how long the thread takes. All are indexed by the
    number of draws made so far. *)
Record Env := {
  VIDEO_FILES : list string;
  urandom_source : nat -> byte;
  system_source : nat -> exn + bytes;
  text_source : nat -> bytes;
  shuffle_source : nat -> list string -> list string;
  video_source : nat -> string -> capture * Q
}.

(** A run of a piece of code on a thread ends by returning, by raising, or
    waiting on [entropy_lock] while another holder (or the thread itself)
    keeps it. *)
Inductive outcome (A : Type) :=
| Ret (a : A) (w : World)
| Raise (e : exn) (w : World)
| Block (w : World).
Arguments Raise {A} e w.
Arguments Block {A} w.

Definition M (A : Type) := thread -> World -> outcome A.

Definition ret {A} (a : A) : M A := fun _ w => Ret a w.
Definition raise {A} (e : exn) : M A := fun _ w => Raise e w.
Definition bind {A B} (c : M A) (k : A -> M B) : M B :=
  fun t w =>
    match c t w with
    | Ret a w' => k a t w'
    | Raise e w' => Raise e w'
    | Block w' => Block w'
    end.

Declare Scope py_scope.
Delimit Scope py_scope with py.
Notation "x <- c ;; k" := (bind c (fun x => k))
  (at level 61, c at next level, right associativity) : py_scope.
Notation "c ;; k" := (bind c (fun _ => k))
  (at level 61, right associativity) : py_scope.
Local Open Scope py_scope.

Definition get {A} (f : World -> A) : M A := fun _ w => Ret (f w) w.
Definition modify (f : World -> World) : M unit := fun _ w => Ret tt (f w).
Definition logger (r : log_record) : M unit := modify (add_log r).

(** [try: body except Exception as e: handler(e)] *)
Definition try_except {A} (body : M A) (handler : exn -> M A) : M A :=
  fun t w =>
    match body t w with
    | Raise e w' => handler e t w'
    | o => o
    end.

(** [try: body finally: cleanup] *)
Definition try_finally {A} (body : M A) (cleanup : M unit) : M A :=
  fun t w =>
    match body t w with
    | Ret a w' => (cleanup ;; ret a) t w'
    | Raise e w' => (cleanup ;; raise e) t w'
    | Block w' => Block w'
    end.

(** [threading.Lock]: not reentrant, so a second [acquire] waits whoever
    the holder is. *)
Definition acquire : M unit :=
  fun t w =>
    match entropy_lock w with
    | None => Ret tt (set_lock (Some t) w)
    | Some _ => Block w
    end.
Definition release : M unit := modify (set_lock None).

(** [with entropy_lock: body] *)
Definition with_entropy_lock {A} (body : M A) : M A :=
  acquire ;; try_finally body release.

Definition Qlt_bool (x y : Q) : bool := negb (Qle_bool y x).

Definition time_time : M Q := get clock.
Definition time_sleep (d : Q) : M unit :=
  modify (fun w => set_clock (clock w + d)%Q w).

Definition pool_extend (b : bytes) : M unit :=
  modify (fun w => set_pool (entropy_pool w ++ b) w).

(** The request as [get_seed] sees it, and the JSON it answers with
    (timestamp and request id are left out). *)
Record request := {
  get_json : option json;          (* [None]: no parsable body *)
  X_API_Key : string
}.

Record response := {
  seed : string;
  signature : string;
  prefetchDuringRefresh : bool;
  fallback : bool;
  error : option exn
}.

(** How a turn of the scheduler's loop leaves its locked block. *)
Inductive flow := Continue | Proceed.

Section WithEnv.
Variable env : Env.

Definition urandom_bytes (n : nat) (w : World) : bytes :=
  map (urandom_source env) (seq (tick w) n).

(** [os.urandom(n)]; a negative n is a ValueError. *)
Definition os_urandom (n : Z) : M bytes :=
  fun _ w =>
    if n <? 0 then Raise ValueError w
    else Ret (urandom_bytes (Z.to_nat n) w) (set_tick (tick w + Z.to_nat n) w).

Definition draw_text : M bytes :=
  fun _ w => Ret (text_source env (tick w)) (set_tick (S (tick w)) w).

Definition range (n : Z) : list Z := map Z.of_nat (seq 0 (Z.to_nat n)).

(** [process_video], lines 235-252: what is returned for the bytes
    gathered from the frames. *)
Definition condense_output (entropy_bytes : bytes) : bytes :=
  if len entropy_bytes >? 1024 * 10 then
    let chunk_size := 1024 * 10 in
    let num_chunks :=
      len entropy_bytes / chunk_size
      + (if len entropy_bytes mod chunk_size =? 0 then 0 else 1) in
    fold_left
      (fun hashed_data i =>
         let start_idx := i * chunk_size in
         let end_idx := Z.min (start_idx + chunk_size) (len entropy_bytes) in
         let chunk := slice entropy_bytes start_idx end_idx in
         hashed_data ++ sha256 chunk)
      (range num_chunks) []
  else sha256 entropy_bytes ++ slice_to entropy_bytes 1024.

(** [process_video]: the frame loop is the environment's, every exit of
    the function is here. *)
Definition process_video (c : capture) : M bytes :=
  match c with
  | NoFile => os_urandom (1024 * 10)
  | NotOpened => os_urandom (1024 * 10)
  | Decoded entropy_data =>
      if len entropy_data =? 0 then os_urandom (1024 * 10)
      else ret (condense_output entropy_data)
  | DecodeError => os_urandom (1024 * 10)
  end.

(** [collect_system_entropy] *)
Definition collect_system_entropy : M bytes :=
  fun t w =>
    match system_source env (tick w) with
    | inl e => Raise e (set_tick (S (tick w)) w)
    | inr readings =>
        (r <- os_urandom 256 ;; ret (readings ++ r)) t (set_tick (S (tick w)) w)
    end.

Opaque ENTROPY_POOL_SIZE.

(** [refresh_entropy_pool], lines 464-468: grow the pool to its target
    size, rehashing the previous digest with fresh bytes. *)
Equations? fill_pool (final_entropy : bytes) (w : World) : World
  by wf (Z.to_nat (ENTROPY_POOL_SIZE - len (entropy_pool w))) lt :=
  fill_pool final_entropy w with Z_lt_dec (len (entropy_pool w)) ENTROPY_POOL_SIZE => {
    | left _ =>
        let hash_input :=
          final_entropy ++ urandom_bytes 32 w ++ text_source env (tick w + 32) in
        let final_entropy' := compute_hash hash_input "sha512" in
        fill_pool final_entropy'
          (set_pool (entropy_pool w ++ final_entropy') (set_tick (tick w + 33) w));
    | right _ => w }.
Proof.
  assert (length final_entropy' = 64%nat) as Hlen.
  { subst final_entropy'. clearbody hash_input.
    change (compute_hash hash_input "sha512") with (sha512 hash_input).
    unfold sha512, SHA2.sha512, SHA2.digest, SHA2.serialize.
    destruct (fold_left _ _ _) as [[[[[[[a b] c] d] e] f] g] h].
    reflexivity. }
  clearbody final_entropy'. unfold len in *. rewrite length_app. lia.
Qed.
Transparent ENTROPY_POOL_SIZE.

(** One video of the loop at lines 395-446: the decoding thread, joined
    with a timeout. [None] is a thread still alive at the timeout. *)
Definition run_video (video : string) (video_timeout : Q) : M (option bytes) :=
  fun t w =>
    let '(c, seconds) := video_source env (tick w) video in
    let w1 := set_tick (S (tick w)) w in
    if Qlt_bool video_timeout seconds then
      Ret None (set_clock (clock w1 + (if Qlt_bool 0 video_timeout
                                       then video_timeout else 0))%Q w1)
    else
      (video_result <- process_video c ;;
       time_sleep seconds ;;
       ret (Some video_result)) t w1.

Fixpoint video_loop (start_time : Q) (videos : list string)
         (all_entropy : bytes) : M bytes :=
  match videos with
  | [] => ret all_entropy
  | video :: rest =>
      now <- time_time ;;
      let elapsed_time := fsub now start_time in
      let remaining_time := fsub 90 elapsed_time in
      if Qle_bool remaining_time 0 then
        logger MaxRefreshTimeReached ;; ret all_entropy
      else
        all_entropy' <-
          try_except
            (let video_timeout :=
               if Qle_bool 25 (fsub remaining_time 5) then 25%Q
               else fsub remaining_time 5 in
             joined <- run_video video video_timeout ;;
             video_data <-
               match joined with
               | None => logger VideoThreadHung ;; os_urandom (1024 * 10)
               | Some [] => os_urandom (1024 * 10)
               | Some video_result => ret video_result
               end ;;
             try_except
               (with_entropy_lock
                  (pool_extend (compute_hash video_data "sha512")) ;;
                ret (all_entropy ++ video_data))
               (fun e => logger (ErrorProcessingVideo e) ;;
                         ret (all_entropy ++ video_data)))
            (fun e => logger (ErrorProcessingVideo e) ;; ret all_entropy) ;;
        video_loop start_time rest all_entropy'
  end.

(** [refresh_entropy_pool] *)
Definition refresh_entropy_pool : M unit :=
  logger RefreshingEntropyPool ;;
  start_time <- time_time ;;
  try_except
    (system_entropy <- collect_system_entropy ;;
     with_entropy_lock
       (r <- os_urandom 32 ;;
        pool_extend (compute_hash (system_entropy ++ r) "sha512")) ;;
     all_entropy <-
       match VIDEO_FILES env with
       | _ :: _ =>
           videos_to_process <-
             (fun _ w => Ret (shuffle_source env (tick w) (VIDEO_FILES env))
                             (set_tick (S (tick w)) w)) ;;
           video_loop start_time videos_to_process system_entropy
       | [] =>
           logger NoVideoFiles ;;
           extra_randomness <- os_urandom (1024 * 100) ;;
           ret (system_entropy ++ extra_randomness)
       end ;;
     timestamp <- draw_text ;;
     let final_entropy := compute_hash (all_entropy ++ timestamp) "sha512" in
     with_entropy_lock
       (pool_extend final_entropy ;;
        modify (fill_pool final_entropy) ;;
        now <- time_time ;;
        modify (set_last_refresh_time now)))
    (fun e =>
       logger (ErrorRefreshingPool e) ;;
       with_entropy_lock
         (emergency_entropy <- os_urandom (1024 * 10) ;;
          pool_extend emergency_entropy ;;
          now <- time_time ;;
          modify (set_last_refresh_time now))).

(** [generate_entropy_seed], lines 343-352: fold the client's hex string
    into the bytes taken from the pool. *)
Definition xor_zip (a b : bytes) : bytes :=
  map (fun ab => Bytes.xor (fst ab) (snd ab)) (combine a b).

Definition mix_extra_entropy (size : Z) (extra_entropy : string)
           (seed_bytes : bytes) : exn + bytes :=
  match fromhex extra_entropy with
  | None => inl ValueError
  | Some client_entropy =>
      if len client_entropy <? size then
        if len client_entropy =? 0 then inl ZeroDivisionError
        else
          let client_entropy' :=
            mul client_entropy (size / len client_entropy + 1) in
          inr (xor_zip seed_bytes (slice_to client_entropy' size))
      else inr (xor_zip seed_bytes (slice_to client_entropy size))
  end.

(** [generate_entropy_seed], lines 335-362: take from the pool, or fall
    back when it holds too little. *)
Definition seed_from_pool (size : Z) (extra_entropy : json) : M string :=
  pool <- get entropy_pool ;;
  if len pool >=? size then
    let seed_bytes := slice_to pool size in
    modify (set_pool (slice_from pool size)) ;;
    seed_bytes' <-
      match extra_entropy with
      | JStr s =>
          if truthy extra_entropy then
            match mix_extra_entropy size s seed_bytes with
            | inr mixed => ret mixed
            | inl e => logger (ClientEntropyFailed e) ;; ret seed_bytes
            end
          else ret seed_bytes
      | _ => ret seed_bytes
      end ;;
    r <- os_urandom 32 ;;
    let seed := slice_to (compute_hash (seed_bytes' ++ r) "sha256") size in
    ret (hex seed)
  else
    logger PoolDepleted ;;
    fallback <- os_urandom size ;;
    let seed := slice_to (compute_hash fallback "sha256") size in
    ret (hex seed).

(** The test at line 332. *)
Definition refresh_needed (size : Z) (w : World) : bool :=
  (len (entropy_pool w) <? size * 2)
  || Qlt_bool REFRESH_INTERVAL (fsub (clock w) (last_refresh_time w)).

(** [generate_entropy_seed] *)
Definition generate_entropy_seed (size : Z) (extra_entropy : json) : M string :=
  with_entropy_lock
    (needed <- get (refresh_needed size) ;;
     (if needed then refresh_entropy_pool else ret tt) ;;
     seed_from_pool size extra_entropy).


(** [threading.Thread(target=...)], [start()], [join(timeout)] and
    [is_alive()]: the target runs on its own thread; one that waits on
    the lock is still alive at the timeout, one that ends (an exception
    ends a thread too) has been joined. *)
Definition start_and_join (child : thread) (target : M unit) (timeout : Q)
  : M bool :=
  fun _ w =>
    match target child w with
    | Ret _ w' => Ret false w'
    | Raise _ w' => Ret false w'
    | Block w' => Ret true (set_clock (clock w' + timeout)%Q w')
    end.

Definition add_failures (d : Z) : M unit :=
  modify (fun w => set_consecutive_failures (consecutive_failures w + d) w).

(** [refresh_with_cleanup], the target of the refresh thread. Its
    assignment to [last_refresh_time] (line 543) binds a local of the
    nested function, so the module's variable is left as it is. *)
Definition refresh_with_cleanup : M unit :=
  try_finally
    (try_except
       (refresh_entropy_pool ;;
        modify (fun w => set_consecutive_failures
                           (Z.max 0 (consecutive_failures w - 1)) w))
       (fun e =>
          logger (UncaughtRefreshError e) ;;
          add_failures 1 ;;
          with_entropy_lock
            (emergency_entropy <- os_urandom (1024 * 20) ;;
             pool_extend emergency_entropy)))
    (modify (set_in_progress false)).

(** Lines 592-617: the adaptive pause. *)
Definition sleep_time (w : World) : Q :=
  let pool_ratio :=
    (inject_Z (len (entropy_pool w)) / inject_Z ENTROPY_POOL_SIZE)%Q in
  if consecutive_failures w >? 5 then
    inject_Z (Z.min (60 * consecutive_failures w) 600)
  else if Qlt_bool (9 # 10) pool_ratio then 90%Q
  else if Qlt_bool (7 # 10) pool_ratio then 45%Q
  else if Qlt_bool (5 # 10) pool_ratio then 30%Q
  else 15%Q.

(** Line 614: [pool_ratio < 0.3 or consecutive_failures > 3]. *)
Definition sleep_is_unusual (w : World) : bool :=
  let pool_ratio :=
    (inject_Z (len (entropy_pool w)) / inject_Z ENTROPY_POOL_SIZE)%Q in
  Qlt_bool pool_ratio (3 # 10) || (consecutive_failures w >? 3).

(** One turn of the [while True] loop of [background_entropy_refresh]. *)
Definition background_entropy_refresh_step : M unit :=
  try_except
    (next <-
       with_entropy_lock
         (current_time <- time_time ;;
          w <- get (fun w => w) ;;
          let pool_low := len (entropy_pool w) <? ENTROPY_POOL_SIZE / 2 in
          let refresh_due :=
            Qlt_bool REFRESH_INTERVAL (fsub current_time (last_refresh_time w)) in
          let time_since_last_attempt :=
            fsub current_time (last_refresh_attempt w) in
          if (consecutive_failures w >? 3)
             && Qlt_bool time_since_last_attempt 120 then
            logger SkippingRefresh ;; time_sleep 30 ;; ret Continue
          else if (pool_low || refresh_due) && negb (refresh_in_progress w) then
            logger BackgroundRefreshTriggered ;;
            modify (set_last_refresh_attempt current_time) ;;
            modify (set_in_progress true) ;;
            alive <- start_and_join EntropyRefresh refresh_with_cleanup 75 ;;
            (if alive : bool then
               logger RefreshThreadHung ;;
               emergency_entropy <- os_urandom (1024 * 64) ;;
               with_entropy_lock
                 (pool_extend emergency_entropy ;;
                  now <- time_time ;;
                  modify (set_last_refresh_time now)) ;;
               add_failures 1 ;;
               modify (set_in_progress false)
             else ret tt) ;;
            ret Proceed
          else ret Proceed) ;;
     match next with
     | Continue => ret tt
     | Proceed =>
         w <- get (fun w => w) ;;
         (if consecutive_failures w >? 5
          then logger ManyConsecutiveFailures else ret tt) ;;
         (if sleep_is_unusual w then logger PoolRatioInfo else ret tt) ;;
         time_sleep (sleep_time w)
     end)
    (fun e =>
       logger (BackgroundError e) ;;
       time_sleep 60 ;;
       add_failures 1 ;;
       modify (set_in_progress false)).

(** [initial_refresh], the target of the start-up thread. *)
Definition initial_refresh : M unit :=
  try_finally
    (try_except refresh_entropy_pool (fun _ => ret tt))
    (modify (set_in_progress false)).

(** Lines 665-671: the fast path's mixing loop. *)
Definition fast_mix (seed_size : Z) (emergency_seed client_bytes : bytes) : bytes :=
  fold_left
    (fun mixed_seed i =>
       setitem mixed_seed (Z.to_nat i)
         (Bytes.xor (nth (Z.to_nat i) emergency_seed x00)
                    (nth (Z.to_nat (i mod len client_bytes)) client_bytes x00)))
    (range (Z.min (len client_bytes) seed_size))
    (Bytes.zeros (Z.to_nat seed_size)).

Definition bytes_fromhex (j : json) : M bytes :=
  match j with
  | JStr s => match fromhex s with Some b => ret b | None => raise ValueError end
  | _ => raise TypeError
  end.

Definition critical_purposes : list string :=
  ["login"; "startup"; "initialization"; "immediate"]%string.

(** [purpose in ['login', 'startup', 'initialization', 'immediate']] *)
Definition is_critical_path (purpose : json) : bool :=
  match purpose with
  | JStr s => existsb (String.eqb s) critical_purposes
  | _ => false
  end.

(** [uuid.uuid4()]: sixteen bytes of [os.urandom]. *)
Definition uuid_uuid4 : M bytes :=
  fun _ w => Ret (urandom_bytes 16 w) (set_tick (tick w + 16) w).

(** Lines 712-725: the handler of [get_seed]. [seed_size] is [None]
    when the exception came before line 642 bound it. *)
Definition get_seed_except (seed_size : option Z) (e : exn) : M response :=
  logger (ErrorGeneratingSeed e) ;;
  match seed_size with
  | None => raise UnboundLocalError
  | Some n =>
      r <- os_urandom n ;;
      request_id <- uuid_uuid4 ;;
      ret {| seed := hex r; signature := "fallback";
             prefetchDuringRefresh := false; fallback := true;
             error := Some e |}
  end.

(** Lines 644-711, once [seed_size] is bound. *)
Definition get_seed_body (req : request) (data : list (string * json))
           (seed_size : Z) : M response :=
  let client_entropy := dict_get_default data "clientEntropy" JNull in
  let purpose := dict_get_default data "purpose" (JStr "general") in
  request_id <- uuid_uuid4 ;;
  logger SeedRequest ;;
  pool_is_refreshing <- get refresh_in_progress ;;
  if is_critical_path purpose && pool_is_refreshing then
    logger FastPathResponse ;;
    emergency_seed <- os_urandom seed_size ;;
    emergency_seed' <-
      (if truthy client_entropy then
         try_except
           (client_bytes <- bytes_fromhex client_entropy ;;
            ret (fast_mix seed_size emergency_seed client_bytes))
           (fun e => logger (ErrorMixingClientEntropy e) ;; ret emergency_seed)
       else ret emergency_seed) ;;
    let final_seed := slice_to (compute_hash emergency_seed' "sha256") seed_size in
    ret {| seed := hex final_seed;
           signature := hex (sha256 final_seed);
           prefetchDuringRefresh := true; fallback := false; error := None |}
  else
    seed <- generate_entropy_seed seed_size client_entropy ;;
    let signature_base :=
      if existsb (String.eqb (X_API_Key req)) API_KEYS_values
      then (seed ++ X_API_Key req)%string else seed in
    ret {| seed := seed;
           signature := hex (sha256 (encode signature_base));
           prefetchDuringRefresh := false; fallback := false; error := None |}.

(** [get_seed] *)
Definition get_seed (req : request) : M response :=
  let data :=
    match get_json req with
    | Some j => if truthy j then j else JObj []
    | None => JObj []
    end in
  match data with
  | JObj d =>
      match int (dict_get_default d "size" (JInt 32)) with
      | inl e => get_seed_except None e
      | inr n =>
          let seed_size := Z.min n 128 in
          try_except (get_seed_body req d seed_size)
                     (get_seed_except (Some seed_size))
      end
  | _ => get_seed_except None AttributeError
  end.

End WithEnv.

(** The state a run ends in. *)
Definition final_world {A} (o : outcome A) : World :=
  match o with
  | Ret _ w => w
  | Raise _ w => w
  | Block w => w
  end.

(** A thread that waits on the lock it holds itself: nobody will ever
    release it. *)
Definition self_deadlock {A} (t : thread) (o : outcome A) : Prop :=
  exists w, o = Block w /\ entropy_lock w = Some t.

(** Two worlds that differ at most in the log, the clock and the number
    of draws: the pool, its timestamp, the lock, the flag and the
    scheduler's counters are the same. *)
Definition same_shared (w w' : World) : Prop :=
  entropy_pool w' = entropy_pool w /\
  last_refresh_time w' = last_refresh_time w /\
  entropy_lock w' = entropy_lock w /\
  refresh_in_progress w' = refresh_in_progress w /\
  last_refresh_attempt w' = last_refresh_attempt w /\
  consecutive_failures w' = consecutive_failures w.

End Server.

(** ** The routes: decorators, statistics and start-up *)

Module Site.

Import Py Float64 Server.
Local Open Scope py_scope.

(** What a request ends with at the client: the value of the view, or
  the status [abort] stops it with. The decorators sit outside the
  [try] of the view, so nothing catches an [abort]. *)
Inductive reply (A : Type) :=
| Body (a : A)
| Abort (status : Z).
Arguments Abort {A} status.

Definition RATE_LIMIT : Z := 100.
Definition RATE_WINDOW : Q := 3600.

(** [request_counters]: IP address -> (count, first_request_time). *)
Definition counters := string -> option (Z * Q).

(** [request_counters = {}] *)
Definition no_counters : counters := fun _ => None.

(** [request_counters[ip] = v] *)
Definition counters_set (ip : string) (v : Z * Q) (rc : counters) : counters :=
fun k => if String.eqb k ip then Some v else rc k.

(** A decorated view: it threads [request_counters] next to the module
  state, since the counters are written before the view runs and stay
  written however the view ends. *)
Definition view (A : Type) :=
counters -> thread -> World -> counters * outcome (reply A).

(** A plain view function under [app.route]. *)
Definition serve {A} (f : M A) : view A :=
fun rc t w => (rc, (a <- f ;; ret (Body a)) t w).

(** [require_api_key]; a missing header and an empty one are both
  falsy. *)
Definition require_api_key {A} (req : request) (f : view A) : view A :=
fun rc t w =>
  let api_key := X_API_Key req in
  if negb (String.eqb api_key EmptyString)
     && existsb (String.eqb api_key) API_KEYS_values
  then f rc t w
  else (rc, Ret (Abort 401) w).

(** [rate_limit] *)
Definition rate_limit {A} (remote_addr : string) (f : view A) : view A :=
fun rc t w =>
  let ip := remote_addr in
  let now := clock w in
  match rc ip with
  | None => f (counters_set ip (1, now) rc) t w
  | Some (count, start_time) =>
      if Qlt_bool RATE_WINDOW (fsub now start_time) then
        f (counters_set ip (1, now) rc) t w
      else if count >=? RATE_LIMIT then (rc, Ret (Abort 429) w)
      else f (counters_set ip (count + 1, start_time) rc) t w
  end.

(** The JSON of [entropy_stats] (the list of video files and the
  timestamp are left out). *)
Record stats := {
poolSize : Z;
poolCapacity : Z;
poolUtilization : Q;
lastRefresh : option Q
}.

(** The module state when the file is loaded (lines 70-77), the
  scheduler's counters at their first values (lines 488-489). *)
Definition initial_world (now : Q) : World :=
mkWorld [] 0 None false 0 0 now 0 [].

(** Code that cannot end with an exception. *)
Definition never_raises {A} (c : M A) : Prop :=
forall t w e w', c t w <> Raise e w'.

(** Code that returns, with a result and a state that satisfy [Q]: it
    neither raises nor waits. *)
Definition returns {A} (c : M A) (t : thread) (w : World)
           (Q : A -> World -> Prop) : Prop :=
  exists a w', c t w = Ret a w' /\ Q a w'.

(** From [w] to [w'] the pool has only been appended to, and the lock,
    the flag and the scheduler's counters are as they were. *)
Definition only_appends (w w' : World) : Prop :=
  (exists added, entropy_pool w' = entropy_pool w ++ added) /\
  entropy_lock w' = entropy_lock w /\
  refresh_in_progress w' = refresh_in_progress w /\
  last_refresh_attempt w' = last_refresh_attempt w /\
  consecutive_failures w' = consecutive_failures w.

(** Requests sent one after the other from one address, at the given
  times, each starting where the one before left the module state. *)
Fixpoint burst {A} (f : view A) (times : list Q) (rc : counters)
       (t : thread) (w : World) : counters * list (outcome (reply A)) :=
match times with
| [] => (rc, [])
| now :: rest =>
    let '(rc', o) := f rc t (set_clock now w) in
    let '(rc'', os) := burst f rest rc' t (final_world o) in
    (rc'', o :: os)
end.

(** Whether a request was turned away by the rate limit. *)
Definition too_many {A} (o : outcome (reply A)) : bool :=
match o with
| Ret (Abort status) _ => status =? 429
| _ => false
end.

Section WithEnv.
Variable env : Env.

(** [/api/get-seed]: the key is checked first, then the rate. *)
Definition get_seed_route (req : request) (remote_addr : string)
: view response :=
require_api_key req (rate_limit remote_addr (serve (get_seed env req))).

(** [entropy_stats] *)
Definition entropy_stats : M stats :=
locked <-
with_entropy_lock
  (w <- get (fun w => w) ;;
   let pool_size := len (entropy_pool w) in
   let last_refresh :=
     if Qlt_bool 0 (last_refresh_time w)
     then Some (last_refresh_time w) else None in
   ret (pool_size, last_refresh)) ;;
let '(pool_size, last_refresh) := locked in
ret {| poolSize := pool_size;
     poolCapacity := ENTROPY_POOL_SIZE;
     poolUtilization :=
       if ENTROPY_POOL_SIZE >? 0
       then (inject_Z pool_size / inject_Z ENTROPY_POOL_SIZE)%Q else 0%Q;
     lastRefresh := last_refresh |}.

(** [/api/entropy-stats]: a key, no rate limit. *)
Definition entropy_stats_route (req : request) : view stats :=
require_api_key req (serve entropy_stats).

(** Lines 754-764: the pool's first bytes, then the flag is raised
for the initial refresh. *)
Definition bootstrap : M unit :=
with_entropy_lock
(initial_entropy <- os_urandom env (1024 * 100) ;;
 pool_extend initial_entropy ;;
 now <- time_time ;;
 modify (set_last_refresh_time now)) ;;
modify (set_in_progress true).

End WithEnv.

End Site.

(** ** Concrete inputs used to run the model *)

Module Demo.

Import Py Server.

Definition env : Env := {|
  VIDEO_FILES := [];
  urandom_source := fun n => Bytes.of_Z (7 * Z.of_nat n + 3);
  system_source := fun _ => inr (encode "1730685600.12-4242-1-0.03");
  text_source := fun _ => encode "0.8444218515250481";
  shuffle_source := fun _ l => l;
  video_source := fun _ _ => (NoFile, 0%Q)
|}.

(** The bytes 0, 1, 2, ... *)
Definition counting (n : nat) : bytes :=
  map (fun i => Bytes.of_Z (Z.of_nat i)) (seq 0 n).

(** A world at time 1000 s, refreshed at time [last], nobody in the
    critical section. *)
Definition world (pool : bytes) (last : Q) (refreshing : bool) : World :=
  mkWorld pool last None refreshing 0 0 1000 0 [].

Definition post (body : list (string * json)) : request :=
  {| get_json := Some (JObj body); X_API_Key := "development-only-key" |}.

End Demo.

(** * Properties *)

(** ** Digests, hexadecimal text and slices *)

Module Facts.

Import Py.

Lemma Z_to_be_length n x : length (Bytes.Z_to_be n x) = n.
Proof. induction n; simpl; congruence. Qed.

Lemma digest_length P msg :
  length (SHA2.digest P msg) = (8 * SHA2.wbytes P)%nat.
Proof.
  unfold SHA2.digest, SHA2.serialize.
  destruct (fold_left _ _ _) as [[[[[[[a b] c] d] e] f] g] h].
  cbn [flat_map]. rewrite !length_app, !Z_to_be_length. simpl. lia.
Qed.

Lemma sha256_length msg : length (SHA2.sha256 msg) = 32%nat.
Proof. unfold SHA2.sha256. rewrite digest_length. reflexivity. Qed.

Lemma sha512_length msg : length (SHA2.sha512 msg) = 64%nat.
Proof. unfold SHA2.sha512. rewrite digest_length. reflexivity. Qed.

Lemma compute_hash_sha256 data : Server.compute_hash data "sha256" = SHA2.sha256 data.
Proof. reflexivity. Qed.

Lemma compute_hash_sha512 data : Server.compute_hash data "sha512" = SHA2.sha512 data.
Proof. reflexivity. Qed.

Lemma hex_length l : String.length (hex l) = (2 * length l)%nat.
Proof. induction l; simpl; [reflexivity | rewrite IHl; lia]. Qed.

Lemma len_nonneg {A} (l : list A) : 0 <= len l.
Proof. unfold len. lia. Qed.

Lemma len_app {A} (l1 l2 : list A) : len (l1 ++ l2) = len l1 + len l2.
Proof. unfold len. rewrite length_app. lia. Qed.

(** Within the sequence a slice bound is itself. *)
Lemma clamp_in_range n i : 0 <= i <= n -> clamp n i = i.
Proof. unfold clamp. intros. destruct (Z.ltb_spec i 0); lia. Qed.

Lemma clamp_beyond n i : 0 <= n <= i -> clamp n i = n.
Proof. unfold clamp. intros. destruct (Z.ltb_spec i 0); lia. Qed.

Lemma clamp_negative n k : 0 < k <= n -> clamp n (- k) = n - k.
Proof. unfold clamp. intros. destruct (Z.ltb_spec (- k) 0); lia. Qed.

Lemma slice_to_length {A} (l : list A) n :
  0 <= n -> len (slice_to l n) = Z.min n (len l).
Proof.
  intros Hn. unfold slice_to, len, clamp.
  destruct (Z.ltb_spec n 0); [lia |].
  rewrite length_firstn. lia.
Qed.

Lemma slice_to_negative_length {A} (l : list A) k :
  0 < k -> len (slice_to l (- k)) = Z.max 0 (len l - k).
Proof.
  intros Hk. unfold slice_to, len, clamp.
  destruct (Z.ltb_spec (- k) 0); [| lia].
  rewrite length_firstn. lia.
Qed.

Lemma slice_to_firstn {A} (l : list A) n :
  0 <= n -> slice_to l n = firstn (Z.to_nat n) l.
Proof.
  intros Hn. unfold slice_to, clamp.
  destruct (Z.ltb_spec n 0); [lia |].
  destruct (Z.le_gt_cases n (len l)).
  - rewrite Z.min_l by lia. reflexivity.
  - rewrite Z.min_r by lia. unfold len in *.
    rewrite Nat2Z.id, firstn_all, firstn_all2 by lia. reflexivity.
Qed.

Lemma slice_from_skipn {A} (l : list A) n :
  0 <= n -> slice_from l n = skipn (Z.to_nat n) l.
Proof.
  intros Hn. unfold slice_from, clamp.
  destruct (Z.ltb_spec n 0); [lia |].
  destruct (Z.le_gt_cases n (len l)).
  - rewrite Z.min_l by lia. reflexivity.
  - rewrite Z.min_r by lia. unfold len in *.
    rewrite Nat2Z.id, skipn_all, skipn_all2 by lia. reflexivity.
Qed.

(** What a seed is cut to: a SHA-256 digest holds 32 bytes, so the slice
    [[:size]] of it holds [min size 32]. *)
Lemma truncated_digest_length data size :
  0 <= size -> len (slice_to (SHA2.sha256 data) size) = Z.min size 32.
Proof.
  intros Hs. rewrite slice_to_length by assumption.
  unfold len. rewrite sha256_length. reflexivity.
Qed.

Lemma Qlt_bool_iff x y : Server.Qlt_bool x y = true <-> (x < y)%Q.
Proof.
  unfold Server.Qlt_bool. rewrite negb_true_iff.
  split; intros H.
  - apply Qnot_le_lt. intros Hle. apply Qle_bool_iff in Hle. congruence.
  - destruct (Qle_bool y x) eqn:E; [| reflexivity].
    apply Qle_bool_iff in E. exfalso. exact (Qlt_not_le _ _ H E).
Qed.

End Facts.

(** ** Rounding to binary64 *)

Module Rounding.

Import Float64.

Lemma rne_ge_floor q : Qfloor q <= rne q.
Proof.
  unfold rne. destruct (Qcompare _ _); [destruct (Z.even _) | |]; lia.
Qed.

(** Rounding to an integer does not step over an integer. *)
Lemma rne_le_int q j : (q <= inject_Z j)%Q -> rne q <= j.
Proof.
  intros Hle.
  assert (Qfloor q <= j) as Hfloor.
  { rewrite <- (Qfloor_Z j). apply Qfloor_resp_le. exact Hle. }
  pose proof (Qfloor_le q) as Hlow.
  unfold rne.
  destruct (Qcompare (q - inject_Z (Qfloor q)) (1 # 2)) eqn:Hcmp.
  - apply Qeq_alt in Hcmp.
    assert (Qfloor q < j); [| destruct (Z.even _); lia].
    destruct (Z.eq_dec (Qfloor q) j) as [Heq | Hne]; [| lia].
    rewrite Heq in Hcmp. lra.
  - exact Hfloor.
  - apply Qgt_alt in Hcmp.
    destruct (Z.eq_dec (Qfloor q) j) as [Heq | Hne]; [| lia].
    rewrite Heq in Hcmp. lra.
Qed.

Lemma scale_nonneg q k : (0 <= q)%Q -> (0 <= scale q k)%Q.
Proof.
  intros Hq. unfold scale.
  assert (forall z, 0 <= z -> (0 < inject_Z (2 ^ z))%Q) as Hpos.
  { intros z Hz. change 0%Q with (inject_Z 0). rewrite <- Zlt_Qlt.
    apply Z.pow_pos_nonneg; lia. }
  destruct (Z.leb_spec 0 k).
  - apply Qmult_le_0_compat; [exact Hq | apply Qlt_le_weak, Hpos; lia].
  - apply Qle_shift_div_l; [apply Hpos; lia | lra].
Qed.

Lemma ilog2_le q n :
  (0 < q)%Q -> 0 <= n -> (q <= inject_Z (2 ^ n))%Q -> ilog2 q <= n.
Proof.
  intros Hpos Hn Hle. unfold ilog2.
  assert (Z.log2 (Qnum q) - Z.log2 (Zpos (Qden q)) <= n) as He.
  { unfold Qle in Hle. cbn [Qnum Qden inject_Z] in Hle.
    unfold Qlt in Hpos. cbn [Qnum Qden] in Hpos.
    assert (Z.log2 (Qnum q) <= Z.log2 (Zpos (Qden q) * 2 ^ n)) as Hmono.
    { apply Z.log2_le_mono. lia. }
    rewrite Z.log2_mul_pow2 in Hmono by lia. lia. }
  destruct (Qle_bool _ _); lia.
Qed.

(** Rounding to binary64 does not step over an integer below 2^52:
    what is at most [n] before rounding is at most [n] after it. *)
Lemma round64_le_int q n :
  0 <= n < 2 ^ 52 -> (q <= inject_Z n)%Q -> (round64 q <= inject_Z n)%Q.
Proof.
  intros Hn Hle. unfold round64.
  assert ((0 <= inject_Z n)%Q) as Hn0.
  { change 0%Q with (inject_Z 0). rewrite <- Zle_Qle. lia. }
  destruct (Qcompare q 0) eqn:Hcmp.
  - exact Hn0.
  - apply Qlt_alt in Hcmp.
    set (k := Z.max (ilog2 (- q)) (-1022) - 52).
    assert (0 <= scale (inject_Z (rne (scale (- q) (- k)))) k)%Q; [| lra].
    apply scale_nonneg. change 0%Q with (inject_Z 0). rewrite <- Zle_Qle.
    etransitivity; [| apply rne_ge_floor].
    rewrite <- (Qfloor_Z 0). apply Qfloor_resp_le.
    apply scale_nonneg. lra.
  - apply Qgt_alt in Hcmp.
    assert (ilog2 q <= 52) as Hexp.
    { apply ilog2_le; [exact Hcmp | lia |].
      apply Qle_trans with (inject_Z n); [exact Hle |].
      rewrite <- Zle_Qle. lia. }
    set (k := Z.max (ilog2 q) (-1022) - 52).
    assert (k <= 0) as Hk by lia. clearbody k.
    assert (0 < 2 ^ (- k)) as Hs by (apply Z.pow_pos_nonneg; lia).
    assert ((0 < inject_Z (2 ^ (- k)))%Q) as HsQ.
    { change 0%Q with (inject_Z 0). rewrite <- Zlt_Qlt. exact Hs. }
    assert (rne (scale q (- k)) <= n * 2 ^ (- k)) as Hm.
    { apply rne_le_int. unfold scale.
      destruct (Z.leb_spec 0 (- k)); [| lia].
      rewrite inject_Z_mult. apply Qmult_le_compat_r; [exact Hle | lra]. }
    rewrite Zle_Qle, inject_Z_mult in Hm.
    unfold scale. destruct (Z.leb_spec 0 k) as [Hzero | Hneg].
    + assert (k = 0) as -> by lia.
      change (inject_Z (2 ^ (- 0))) with 1%Q in Hm.
      change (inject_Z (2 ^ 0)) with 1%Q.
      rewrite Qmult_1_r in *. exact Hm.
    + apply Qle_shift_div_r; [exact HsQ | exact Hm].
Qed.

(** A difference of at most [n] seconds is not seen as more than [n]
    by the code. *)
Lemma not_later x y n :
  0 <= n < 2 ^ 52 -> (x - y <= inject_Z n)%Q ->
  Server.Qlt_bool (inject_Z n) (fsub x y) = false.
Proof.
  intros Hn Hle.
  destruct (Server.Qlt_bool (inject_Z n) (fsub x y)) eqn:E; [| reflexivity].
  apply Facts.Qlt_bool_iff in E. exfalso.
  exact (Qlt_not_le _ _ E (round64_le_int Hn Hle)).
Qed.

(** binary64 at work: the two readings are the floats 300.1 and 0.1,
    more than 300 s apart as numbers, and their difference is the
    float 300.0. *)
Lemma rounded_difference :
  (300 < round64 (3001 # 10) - round64 (1 # 10))%Q /\
  (fsub (round64 (3001 # 10)) (round64 (1 # 10)) == 300)%Q.
Proof. split; vm_compute; reflexivity. Qed.

End Rounding.

(** ** Running the code: the lock *)

Module Locking.

Import Py Float64 Server Facts.

(** Unfold the monad and read record fields. *)
Ltac run :=
  cbv beta iota delta
    [bind ret raise get modify logger try_except try_finally acquire release
     with_entropy_lock time_time time_sleep pool_extend add_failures
     uuid_uuid4];
  cbn [entropy_pool last_refresh_time entropy_lock refresh_in_progress
       last_refresh_attempt consecutive_failures clock tick log
       set_pool set_last_refresh_time set_lock set_in_progress
       set_last_refresh_attempt set_consecutive_failures set_clock set_tick
       add_log final_world].

Section WithEnv.
Variable env : Env.

(** A refresh started while somebody holds the lock waits on its first
    [with entropy_lock], whether the collector returned or raised, and
    has touched nothing by then. *)
Lemma refresh_waits_when_locked t holder w :
  entropy_lock w = Some holder ->
  exists w',
    refresh_entropy_pool env t w = Block w' /\
    same_shared w w' /\
    In RefreshingEntropyPool (log w').
Proof.
  intros Hlock. unfold refresh_entropy_pool, collect_system_entropy. run.
  destruct (system_source env (tick w)) as [e | readings]; run.
  - rewrite Hlock. eexists; split; [reflexivity |].
    split; [repeat split; assumption |].
    cbn. rewrite !in_app_iff. cbn. tauto.
  - unfold os_urandom. cbn [Z.ltb Z.compare]. run. rewrite Hlock.
    eexists; split; [reflexivity |].
    split; [repeat split; assumption |].
    cbn. rewrite !in_app_iff. cbn. tauto.
Qed.


Lemma os_urandom_nonneg n t w :
  0 <= n ->
  os_urandom env n t w
  = Ret (urandom_bytes env (Z.to_nat n) w) (set_tick (tick w + Z.to_nat n) w).
Proof.
  intros Hn. unfold os_urandom.
  destruct (Z.ltb_spec n 0); [lia | reflexivity].
Qed.

Lemma os_urandom_negative n t w :
  n < 0 -> os_urandom env n t w = Raise ValueError w.
Proof.
  intros Hn. unfold os_urandom.
  destruct (Z.ltb_spec n 0); [reflexivity | lia].
Qed.

Lemma urandom_bytes_length n w : length (urandom_bytes env n w) = n.
Proof. unfold urandom_bytes. rewrite length_map, length_seq. reflexivity. Qed.

(** C2 (the code breaks it). The claim: extraction never invokes a
    blocking refresh while it holds the pool's non-reentrant lock, and
    completes whatever the state. The code: whenever the test at line
    332 asks for a refresh, [generate_entropy_seed] calls
    [refresh_entropy_pool] inside its own [with entropy_lock]; the
    refresh then waits for that same lock, so the request never
    returns and keeps the lock for ever. *)
Theorem extraction_waits_on_its_own_lock size extra_entropy t w :
  entropy_lock w = None ->
  refresh_needed size w = true ->
  exists w',
    generate_entropy_seed env size extra_entropy t w = Block w' /\
    entropy_lock w' = Some t /\
    entropy_pool w' = entropy_pool w /\
    In RefreshingEntropyPool (log w').
Proof.
  intros Hfree Hneeded.
  destruct (@refresh_waits_when_locked t t (set_lock (Some t) w))
    as (w' & Hrun & Hsame & Hlog); [reflexivity |].
  destruct Hsame as (Hpool & _ & Hlock & _).
  exists w'. unfold generate_entropy_seed. run. rewrite Hfree. run.
  change (refresh_needed size (set_lock (Some t) w)) with (refresh_needed size w).
  rewrite Hneeded, Hrun. auto.
Qed.

(** What [seed_from_pool] writes to the log is never the record of a
    refresh. *)
Lemma seed_from_pool_log size extra_entropy t w :
  exists records,
    log (final_world (seed_from_pool env size extra_entropy t w))
    = log w ++ records /\
    ~ In RefreshingEntropyPool records.
Proof.
  unfold seed_from_pool. run.
  destruct (len (entropy_pool w) >=? size).
  - destruct extra_entropy as [| b | z | s | l | d]; run;
      try (rewrite os_urandom_nonneg by lia; run;
           exists []; rewrite app_nil_r; split; [reflexivity | intros []]).
    destruct (truthy (JStr s)); run;
      [| rewrite os_urandom_nonneg by lia; run;
         exists []; rewrite app_nil_r; split; [reflexivity | intros []]].
    destruct (mix_extra_entropy size s _) as [e | mixed]; run;
      rewrite os_urandom_nonneg by lia; run.
    + exists [ClientEntropyFailed e]. split; [reflexivity |].
      intros [H | []]. discriminate H.
    + exists []. rewrite app_nil_r. split; [reflexivity | intros []].
  - unfold os_urandom. run. destruct (size <? 0); run;
      (exists [PoolDepleted]; split; [reflexivity |];
       intros [H | []]; discriminate H).
Qed.

(** C8 (as amended). The caller refreshes the pool itself exactly when
    the pool holds fewer than 2*size bytes or is stale, that is when the
    floating-point difference [current_time - last_refresh_time] is
    more than REFRESH_INTERVAL: staleness alone is enough. *)
Theorem caller_refreshes_iff_low_or_stale size extra_entropy t w :
  entropy_lock w = None ->
  ~ In RefreshingEntropyPool (log w) ->
  In RefreshingEntropyPool
     (log (final_world (generate_entropy_seed env size extra_entropy t w)))
  <-> (len (entropy_pool w) < size * 2
       \/ (REFRESH_INTERVAL < fsub (clock w) (last_refresh_time w))%Q).
Proof.
  intros Hfree Hquiet.
  assert (refresh_needed size w = true
          <-> (len (entropy_pool w) < size * 2
               \/ (REFRESH_INTERVAL < fsub (clock w) (last_refresh_time w))%Q)) as Htest.
  { unfold refresh_needed. rewrite orb_true_iff, Z.ltb_lt, Qlt_bool_iff.
    reflexivity. }
  rewrite <- Htest.
  destruct (refresh_needed size w) eqn:Hneeded.
  - destruct (@refresh_waits_when_locked t t (set_lock (Some t) w))
      as (w' & Hrun & _ & Hlog); [reflexivity |].
    unfold generate_entropy_seed. run. rewrite Hfree. run.
    change (refresh_needed size (set_lock (Some t) w)) with (refresh_needed size w).
    rewrite Hneeded, Hrun. cbn. tauto.
  - split; [| discriminate].
    intros Hin. exfalso.
    unfold generate_entropy_seed in Hin. revert Hin. run. rewrite Hfree. run.
    change (refresh_needed size (set_lock (Some t) w)) with (refresh_needed size w).
    rewrite Hneeded.
    destruct (seed_from_pool_log size extra_entropy t (set_lock (Some t) w))
      as (records & Hlog & Hnone).
    destruct (seed_from_pool env size extra_entropy t (set_lock (Some t) w))
      as [s w' | e w' | w']; cbn in Hlog |- *; rewrite Hlog, in_app_iff; tauto.
Qed.

End WithEnv.

(** C8 (the claim as written fails). A pool of 1024 bytes last refreshed
    1000 s ago, a request for 32 bytes: the pool is not below 2*32 bytes,
    and yet the caller starts a refresh. *)
Lemma stale_pool_makes_the_caller_refresh :
  let w := Demo.world (Demo.counting 1024) 0 false in
  ~ len (entropy_pool w) < 32 * 2 /\
  In RefreshingEntropyPool
     (log (final_world (generate_entropy_seed Demo.env 32 JNull RequestHandler w))).
Proof. split; [vm_compute; discriminate | vm_compute; auto]. Qed.

Lemma caller_refreshes_iff_low_or_stale_witness :
  let w := Demo.world (Demo.counting 1024) 0 false in
  In RefreshingEntropyPool
     (log (final_world (generate_entropy_seed Demo.env 32 JNull RequestHandler w)))
  <-> (len (entropy_pool w) < 32 * 2
       \/ (REFRESH_INTERVAL < fsub (clock w) (last_refresh_time w))%Q).
Proof.
  apply (@caller_refreshes_iff_low_or_stale Demo.env 32 JNull RequestHandler
           (Demo.world (Demo.counting 1024) 0 false));
    [reflexivity | intros []].
Defined.

Lemma extraction_waits_on_its_own_lock_witness :
  exists w',
    generate_entropy_seed Demo.env 32 JNull RequestHandler (Demo.world [] 900 false)
    = Block w' /\
    entropy_lock w' = Some RequestHandler /\
    entropy_pool w' = [] /\
    In RefreshingEntropyPool (log w').
Proof.
  apply (@extraction_waits_on_its_own_lock Demo.env 32 JNull RequestHandler
           (Demo.world [] 900 false)); reflexivity.
Defined.

End Locking.

(** ** The background scheduler *)

Module Scheduler.

Import Py Float64 Server Facts Locking.

Section WithEnv.
Variable env : Env.

(** The refresh thread's target, started while somebody holds the lock,
    waits too: neither handler of [refresh_with_cleanup] runs. *)
Lemma refresh_thread_waits_when_locked t holder w :
  entropy_lock w = Some holder ->
  exists w',
    refresh_with_cleanup env t w = Block w' /\
    same_shared w w'.
Proof.
  intros Hlock.
  destruct (@refresh_waits_when_locked env t holder w Hlock)
    as (w' & Hrun & Hsame & _).
  exists w'. unfold refresh_with_cleanup. run. rewrite Hrun. auto.
Qed.

(** C7 (the code breaks it). The claim: a refresh cycle that fails or
    runs out of time still has an emergency block appended to the pool
    and the in-progress flag cleared. The code: the scheduler starts
    and joins the refresh thread inside its own [with entropy_lock]
    (lines 494-590), so the thread waits for the lock and is always
    still alive after the 75 s; the scheduler then enters
    [with entropy_lock] again at line 573 and waits for the lock it
    holds. Nothing is appended and the flag stays set. *)
Theorem scheduler_waits_on_its_own_lock w :
  entropy_lock w = None ->
  refresh_in_progress w = false ->
  (consecutive_failures w >? 3)
    && Qlt_bool (fsub (clock w) (last_refresh_attempt w)) 120 = false ->
  (len (entropy_pool w) <? ENTROPY_POOL_SIZE / 2)
    || Qlt_bool REFRESH_INTERVAL (fsub (clock w) (last_refresh_time w)) = true ->
  exists w',
    background_entropy_refresh_step env BackgroundRefresh w = Block w' /\
    entropy_lock w' = Some BackgroundRefresh /\
    refresh_in_progress w' = true /\
    entropy_pool w' = entropy_pool w /\
    In RefreshThreadHung (log w').
Proof.
  intros Hfree Hflag Hretry Hdue.
  unfold background_entropy_refresh_step. run. rewrite Hfree. run.
  rewrite Hretry, Hdue, Hflag. cbn [andb negb]. run.
  unfold start_and_join.
  match goal with
  | |- context [refresh_with_cleanup env EntropyRefresh ?w0] =>
      destruct (@refresh_thread_waits_when_locked EntropyRefresh BackgroundRefresh w0)
        as (w1 & Hrun & Hpool & _ & Hlock & Hprogress & _);
      [reflexivity | rewrite Hrun]
  end.
  run. rewrite os_urandom_nonneg by lia. run.
  cbn in Hlock, Hprogress, Hpool. rewrite Hlock.
  eexists. split; [reflexivity |]. run.
  repeat split; try assumption.
  rewrite in_app_iff. cbn. tauto.
Qed.

End WithEnv.

Lemma scheduler_waits_on_its_own_lock_witness :
  exists w',
    background_entropy_refresh_step Demo.env BackgroundRefresh
      (Demo.world (Demo.counting 200) 900 false) = Block w' /\
    entropy_lock w' = Some BackgroundRefresh /\
    refresh_in_progress w' = true /\
    entropy_pool w' = entropy_pool (Demo.world (Demo.counting 200) 900 false) /\
    In RefreshThreadHung (log w').
Proof.
  apply (@scheduler_waits_on_its_own_lock Demo.env
           (Demo.world (Demo.counting 200) 900 false));
    vm_compute; reflexivity.
Defined.

End Scheduler.

(** ** Taking from the pool and the length of a seed *)

Module Extraction.

Import Py Server Facts Locking.

Section WithEnv.
Variable env : Env.

(** The take block of [generate_entropy_seed] on its own (lines
    336-362), entered with a pool of m bytes and a size n. When m >= n
    the block returns, the pool keeps its last m - n bytes, and the seed
    is the digest of the first n bytes (left as they are, or XORed with
    the client's entropy) followed by 32 fresh bytes. When m < n the
    block logs that the pool is depleted, answers from [os.urandom]
    alone and leaves the pool as it is. *)
Lemma take_from_pool size extra_entropy t w :
  0 <= size ->
  (size <= len (entropy_pool w) ->
   exists seed_bytes w',
     seed_from_pool env size extra_entropy t w
     = Ret (hex (slice_to (sha256 (seed_bytes ++ urandom_bytes env 32 w)) size)) w' /\
     entropy_pool w' = skipn (Z.to_nat size) (entropy_pool w) /\
     len (entropy_pool w') = len (entropy_pool w) - size /\
     firstn (Z.to_nat size) (entropy_pool w) ++ entropy_pool w' = entropy_pool w /\
     (seed_bytes = firstn (Z.to_nat size) (entropy_pool w) \/
      exists s, extra_entropy = JStr s /\
                mix_extra_entropy size s (firstn (Z.to_nat size) (entropy_pool w))
                = inr seed_bytes))
  /\
  (len (entropy_pool w) < size ->
   exists w',
     seed_from_pool env size extra_entropy t w
     = Ret (hex (slice_to (sha256 (urandom_bytes env (Z.to_nat size) w)) size)) w' /\
     entropy_pool w' = entropy_pool w /\
     log w' = log w ++ [PoolDepleted]).
Proof.
  intros Hsize. split.
  - intros Hfits.
    assert (len (skipn (Z.to_nat size) (entropy_pool w))
            = len (entropy_pool w) - size) as Hrest.
    { unfold len in *. rewrite length_skipn. lia. }
    unfold seed_from_pool. run.
    destruct (Z.geb_spec (len (entropy_pool w)) size) as [_ | Hlt]; [| lia].
    rewrite slice_to_firstn, slice_from_skipn by assumption.
    destruct extra_entropy as [| b | z | s | l | d]; run;
      try (rewrite os_urandom_nonneg by lia; run;
           eexists; eexists; split; [reflexivity |];
           run; repeat split;
           [ exact Hrest | apply firstn_skipn | left; reflexivity ]).
    destruct (truthy (JStr s)); run.
    + destruct (mix_extra_entropy size s _) as [e | mixed] eqn:Hmix; run;
        rewrite os_urandom_nonneg by lia; run;
        eexists; eexists; (split; [reflexivity |]);
        run; repeat split;
        try exact Hrest; try apply firstn_skipn.
      * left; reflexivity.
      * right. exists s. split; [reflexivity | exact Hmix].
    + rewrite os_urandom_nonneg by lia; run.
      eexists; eexists; split; [reflexivity |].
      run; repeat split;
        [ exact Hrest | apply firstn_skipn | left; reflexivity ].
  - intros Hshort. unfold seed_from_pool. run.
    destruct (Z.geb_spec (len (entropy_pool w)) size) as [Hge | _]; [lia |].
    run. rewrite os_urandom_nonneg by assumption. run.
    eexists. split; [reflexivity |]. run. split; reflexivity.
Qed.

End WithEnv.


End Extraction.

(** ** The seed endpoint *)

Module Endpoint.

Import Py Float64 Server Facts Locking Extraction.

Section WithEnv.
Variable env : Env.

(** Every way out of [seed_from_pool] for a size that is not negative:
    the seed is a SHA-256 digest cut by [[:size]]. *)
Lemma seed_from_pool_returns size extra_entropy t w :
  0 <= size ->
  exists data w',
    seed_from_pool env size extra_entropy t w
    = Ret (hex (slice_to (sha256 data) size)) w'.
Proof.
  intros Hsize.
  destruct (@take_from_pool env size extra_entropy t w Hsize) as [Hfits Hshort].
  destruct (Z.le_gt_cases size (len (entropy_pool w))) as [Hle | Hgt].
  - destruct (Hfits Hle) as (seed_bytes & w' & Hrun & _). eauto.
  - destruct (Hshort ltac:(lia)) as (w' & Hrun & _). eauto.
Qed.

Local Ltac fast_path_done :=
  eexists; eexists; split; [reflexivity |];
  split;
  [ repeat split
  | intros pool; rewrite os_urandom_nonneg by assumption; run; reflexivity ].

(** The fast path of [get_seed] (lines 658-690) for a size that is not
    negative: always a response, flagged, whose seed is a SHA-256
    digest cut by [[:size]]; the shared state is left as it was. *)
Lemma fast_path_returns req data seed_size t w :
  0 <= seed_size ->
  is_critical_path (dict_get_default data "purpose" (JStr "general")) = true ->
  refresh_in_progress w = true ->
  exists mixed w',
    get_seed_body env req data seed_size t w
    = Ret {| seed := hex (slice_to (sha256 mixed) seed_size);
             signature := hex (sha256 (slice_to (sha256 mixed) seed_size));
             prefetchDuringRefresh := true; fallback := false;
             error := None |} w' /\
    same_shared w w' /\
    forall pool,
      get_seed_body env req data seed_size t (set_pool pool w)
      = Ret {| seed := hex (slice_to (sha256 mixed) seed_size);
               signature := hex (sha256 (slice_to (sha256 mixed) seed_size));
               prefetchDuringRefresh := true; fallback := false;
               error := None |} (set_pool pool w').
Proof.
  intros Hsize Hcritical Hflag.
  unfold get_seed_body. run. rewrite Hcritical, Hflag. cbn [andb]. run.
  rewrite os_urandom_nonneg by assumption. run.
  destruct (truthy (dict_get_default data "clientEntropy" JNull)); run;
    [| fast_path_done].
  unfold bytes_fromhex.
  destruct (dict_get_default data "clientEntropy" JNull)
    as [| b | z | s | l | d]; run; try fast_path_done.
  destruct (fromhex s); run; fast_path_done.
Qed.

(** C1 (the code breaks it). The claim: for a size in [1,128] every
    path returns a seed of exactly [size] bytes, 2*size hexadecimal
    digits. The code: on the standard path, the fallback of a depleted
    pool and the fast path alike, the seed is [compute_hash(...)[:size]]
    with a 32-byte SHA-256 digest, so its length is min(size, 32)
    bytes: a request for 64 bytes is answered with 32. *)
Theorem seed_length_is_capped_by_the_digest size :
  1 <= size <= 128 ->
  (forall extra_entropy t w,
      exists s w',
        seed_from_pool env size extra_entropy t w = Ret s w' /\
        Z.of_nat (String.length s) = 2 * Z.min size 32)
  /\
  (forall req data t w,
      is_critical_path (dict_get_default data "purpose" (JStr "general")) = true ->
      refresh_in_progress w = true ->
      exists r w',
        get_seed_body env req data size t w = Ret r w' /\
        Z.of_nat (String.length (seed r)) = 2 * Z.min size 32).
Proof.
  intros Hsize.
  assert (forall data,
             Z.of_nat (String.length (hex (slice_to (sha256 data) size)))
             = 2 * Z.min size 32) as Hlen.
  { intros data. rewrite hex_length.
    pose proof (@truncated_digest_length data size ltac:(lia)) as Hcut.
    unfold len, sha256 in *. lia. }
  split.
  - intros extra_entropy t w.
    destruct (@seed_from_pool_returns size extra_entropy t w) as (data & w' & Hrun);
      [lia |].
    exists (hex (slice_to (sha256 data) size)), w'. auto.
  - intros req data t w Hcritical Hflag.
    destruct (@fast_path_returns req data size t w) as (mixed & w' & Hrun & _);
      [lia | assumption | assumption |].
    eexists; exists w'. split; [exact Hrun |]. cbn [seed]. apply Hlen.
Qed.


(** The dictionary [get_seed] reads its parameters from. *)
Lemma get_seed_on_object req d t w :
  get_json req = Some (JObj d) ->
  get_seed env req t w
  = match int (dict_get_default d "size" (JInt 32)) with
    | inl e => get_seed_except env None e t w
    | inr n =>
        try_except (get_seed_body env req d (Z.min n 128))
                   (get_seed_except env (Some (Z.min n 128))) t w
    end.
Proof.
  intros Hjson. unfold get_seed. rewrite Hjson.
  destruct d as [| kv d]; cbn [truthy];
    destruct (int _); reflexivity.
Qed.

(** C3 (the code breaks it). The claim: the endpoint never fails hard,
    malformed size included; any internal error gives a fallback seed
    with fallback = true. The code: [int(data.get('size', 32))] raises
    at line 642 before [seed_size] is bound, and the handler at line
    716 calls [os.urandom(seed_size)]: reading the unbound local raises
    UnboundLocalError inside the handler, which leaves [get_seed] as an
    exception, not as a response. *)
Theorem malformed_size_escapes_the_handler req d e t w :
  get_json req = Some (JObj d) ->
  int (dict_get_default d "size" (JInt 32)) = inl e ->
  get_seed env req t w
  = Raise UnboundLocalError (add_log (ErrorGeneratingSeed e) w).
Proof.
  intros Hjson Hsize. rewrite (@get_seed_on_object req d t w Hjson), Hsize.
  reflexivity.
Qed.

(** A request whose purpose is latency-critical, made while a
    refresh is in progress, with a size that [int] accepts and that is
    not negative: the endpoint returns a response flagged
    [prefetchDuringRefresh], not a fallback; the pool, its timestamp,
    the lock and the flag are as before; and the response is the same
    whatever the pool holds. *)
Lemma critical_request_during_refresh_skips_the_pool req d n t w :
  get_json req = Some (JObj d) ->
  int (dict_get_default d "size" (JInt 32)) = inr n ->
  0 <= n ->
  is_critical_path (dict_get_default d "purpose" (JStr "general")) = true ->
  refresh_in_progress w = true ->
  exists r w',
    get_seed env req t w = Ret r w' /\
    prefetchDuringRefresh r = true /\
    fallback r = false /\
    same_shared w w' /\
    forall pool, get_seed env req t (set_pool pool w) = Ret r (set_pool pool w').
Proof.
  intros Hjson Hsize Hn Hcritical Hflag.
  destruct (@fast_path_returns req d (Z.min n 128) t w)
    as (mixed & w' & Hrun & Hsame & Hany); [lia | assumption | assumption |].
  eexists; exists w'. split; [| split; [| split; [| split]]].
  - rewrite (@get_seed_on_object req d t w Hjson), Hsize.
    unfold try_except. rewrite Hrun. reflexivity.
  - reflexivity.
  - reflexivity.
  - exact Hsame.
  - intros pool. rewrite (@get_seed_on_object req d t (set_pool pool w) Hjson), Hsize.
    unfold try_except. rewrite Hany. reflexivity.
Qed.

(** C10 (as amended). The size is clamped from above only. With the
    lock free and no refresh due: a request of size 0 returns an empty
    seed and leaves the pool as it is; a request of size -k on the
    standard path, against a pool of more than k bytes, leaves only the
    last k bytes in the pool and returns a seed of max(0, 32-k) bytes;
    a size of 128 or more is served as 128. *)
Theorem size_is_clamped_from_above_only req d n t w :
  get_json req = Some (JObj d) ->
  int (dict_get_default d "size" (JInt 32)) = inr n ->
  entropy_lock w = None ->
  (clock w - last_refresh_time w <= REFRESH_INTERVAL)%Q ->
  (n = 0 ->
   exists r w',
     get_seed env req t w = Ret r w' /\
     seed r = EmptyString /\
     entropy_pool w' = entropy_pool w)
  /\
  (forall k,
      n = - k -> 0 < k < len (entropy_pool w) ->
      is_critical_path (dict_get_default d "purpose" (JStr "general"))
        && refresh_in_progress w = false ->
      exists r w',
        get_seed env req t w = Ret r w' /\
        entropy_pool w'
        = skipn (Z.to_nat (len (entropy_pool w) - k)) (entropy_pool w) /\
        len (entropy_pool w') = k /\
        Z.of_nat (String.length (seed r)) = 2 * Z.max 0 (32 - k))
  /\
  (128 <= n ->
   get_seed env req t w
   = try_except (get_seed_body env req d 128)
                (get_seed_except env (Some 128)) t w).
Proof.
  intros Hjson Hsize Hfree Hfresh.
  assert (Qlt_bool REFRESH_INTERVAL (fsub (clock w) (last_refresh_time w)) = false)
    as Hnot_stale.
  { apply (@Rounding.not_later (clock w) (last_refresh_time w) 300);
      [lia | exact Hfresh]. }
  rewrite (@get_seed_on_object req d t w Hjson), Hsize.
  split; [| split].
  - intros ->. change (Z.min 0 128) with 0.
    assert (forall data, hex (slice_to (A := byte) data 0) = EmptyString) as Hempty.
    { intros data. rewrite slice_to_firstn by lia. reflexivity. }
    unfold try_except, get_seed_body. run.
    destruct (is_critical_path _ && refresh_in_progress w).
    + run. rewrite os_urandom_nonneg by lia. run.
      destruct (truthy _); run;
        [| eexists; eexists; split; [reflexivity |];
           split; [apply Hempty | reflexivity]].
      unfold bytes_fromhex.
      destruct (dict_get_default d "clientEntropy" JNull)
        as [| b | z | s | l | d']; run;
        try (eexists; eexists; split; [reflexivity |];
             split; [apply Hempty | reflexivity]).
      destruct (fromhex s); run;
        eexists; eexists; (split; [reflexivity |]);
        (split; [apply Hempty | reflexivity]).
    + unfold generate_entropy_seed. run. rewrite Hfree. run.
      unfold refresh_needed. run. rewrite Hnot_stale.
      destruct (Z.ltb_spec (len (entropy_pool w)) (0 * 2)) as [Hneg | _];
        [pose proof (len_nonneg (entropy_pool w)); lia |].
      cbn [orb]. run.
      match goal with
      | |- context [seed_from_pool env 0 ?x t ?w0] =>
          destruct (@take_from_pool env 0 x t w0) as [Hfits _]; [lia |]
      end.
      destruct Hfits as (seed_bytes & w' & Hrun & Hpool & _);
        [apply len_nonneg |].
      rewrite Hrun. run.
      eexists; eexists; split; [reflexivity |]. split; [apply Hempty |].
      cbn [entropy_pool set_lock]. rewrite Hpool. reflexivity.
  - intros k -> Hk Hstandard.
    pose proof (len_nonneg (entropy_pool w)) as Hm.
    rewrite Z.min_l by lia.
    unfold try_except, get_seed_body. run. rewrite Hstandard.
    unfold generate_entropy_seed. run. rewrite Hfree. run.
    unfold refresh_needed. run. rewrite Hnot_stale.
    destruct (Z.ltb_spec (len (entropy_pool w)) (- k * 2)) as [Hneg | _]; [lia |].
    cbn [orb]. run.
    unfold seed_from_pool. run.
    destruct (Z.geb_spec (len (entropy_pool w)) (- k)) as [_ | Hlt]; [| lia].
    assert (slice_from (entropy_pool w) (- k)
            = skipn (Z.to_nat (len (entropy_pool w) - k)) (entropy_pool w))
      as Hrest.
    { unfold slice_from. rewrite clamp_negative by lia. reflexivity. }
    assert (len (skipn (Z.to_nat (len (entropy_pool w) - k)) (entropy_pool w)) = k)
      as Hrest_len.
    { unfold len in *. rewrite length_skipn. lia. }
    assert (forall data,
               Z.of_nat (String.length (hex (slice_to (sha256 data) (- k))))
               = 2 * Z.max 0 (32 - k)) as Hseed.
    { intros data. rewrite hex_length.
      pose proof (@slice_to_negative_length _ (sha256 data) k ltac:(lia)) as Hcut.
      unfold len, sha256 in *. rewrite sha256_length in Hcut. lia. }
    rewrite Hrest.
    destruct (dict_get_default d "clientEntropy" JNull)
      as [| b | z | s | l | d']; run;
      try (rewrite os_urandom_nonneg by lia; run;
           eexists; eexists; split; [reflexivity |];
           split; [reflexivity | split; [exact Hrest_len | apply Hseed]]).
    destruct (truthy (JStr s)); run;
      [destruct (mix_extra_entropy (- k) s _) as [e | mixed]; run |];
      rewrite os_urandom_nonneg by lia; run;
      eexists; eexists; (split; [reflexivity |]);
      (split; [reflexivity | split; [exact Hrest_len | apply Hseed]]).
  - intros Hbig. rewrite Z.min_r by lia. reflexivity.
Qed.

End WithEnv.

Lemma seed_length_is_capped_by_the_digest_witness :
  (exists s w',
      seed_from_pool Demo.env 64 JNull RequestHandler
        (Demo.world (Demo.counting 200) 900 false) = Ret s w' /\
      Z.of_nat (String.length s) = 64)
  /\
  (exists s w',
      seed_from_pool Demo.env 64 JNull RequestHandler
        (Demo.world [] 900 false) = Ret s w' /\
      Z.of_nat (String.length s) = 64)
  /\
  (exists r w',
      get_seed_body Demo.env (Demo.post []) [("purpose"%string, JStr "login")] 64
        RequestHandler (Demo.world (Demo.counting 200) 900 true) = Ret r w' /\
      Z.of_nat (String.length (seed r)) = 64).
Proof.
  destruct (@seed_length_is_capped_by_the_digest Demo.env 64) as [Hpool Hfast];
    [lia |].
  split; [apply Hpool | split; [apply Hpool | apply Hfast; reflexivity]].
Defined.


Lemma malformed_size_escapes_the_handler_witness :
  exists w',
    get_seed Demo.env (Demo.post [("size"%string, JStr "abc")]) RequestHandler
      (Demo.world (Demo.counting 200) 900 false)
    = Raise UnboundLocalError w'.
Proof.
  eexists.
  apply (@malformed_size_escapes_the_handler Demo.env
           (Demo.post [("size"%string, JStr "abc")])
           [("size"%string, JStr "abc")] ValueError RequestHandler
           (Demo.world (Demo.counting 200) 900 false));
    reflexivity.
Defined.


(** C10 (the claim as written fails). A request of size -1 with purpose
    "login" while a refresh is in progress, against a pool of 200 bytes:
    [os.urandom(-1)] raises on the fast path and again in the handler,
    so the request ends in ValueError and the pool keeps its 200 bytes
    instead of its last one. *)
Lemma negative_size_on_the_fast_path_raises :
  let w := Demo.world (Demo.counting 200) 900 true in
  let req :=
    Demo.post [("size"%string, JInt (-1)); ("purpose"%string, JStr "login")] in
  1 < len (entropy_pool w) /\
  exists w',
    get_seed Demo.env req RequestHandler w = Raise ValueError w' /\
    entropy_pool w' = entropy_pool w.
Proof.
  split; [reflexivity |].
  eexists. split; [vm_compute; reflexivity | reflexivity].
Qed.

Lemma size_is_clamped_from_above_only_witness :
  (exists r w',
      get_seed Demo.env (Demo.post [("size"%string, JInt (-2))]) RequestHandler
        (Demo.world (Demo.counting 200) 900 false) = Ret r w' /\
      entropy_pool w' = skipn (Z.to_nat (200 - 2)) (Demo.counting 200) /\
      len (entropy_pool w') = 2 /\
      Z.of_nat (String.length (seed r)) = 60).
Proof.
  destruct (@size_is_clamped_from_above_only Demo.env
              (Demo.post [("size"%string, JInt (-2))])
              [("size"%string, JInt (-2))] (-2) RequestHandler
              (Demo.world (Demo.counting 200) 900 false))
    as (_ & Hnegative & _);
    try reflexivity; [vm_compute; discriminate |].
  apply (Hnegative 2); [reflexivity | split; reflexivity | reflexivity].
Defined.

End Endpoint.

(** ** Folding the client's entropy into a seed *)

Module Mixing.

Import Py Server Facts.

Lemma fold_left_map {A B C} (f : A -> B -> A) (g : C -> B) l a :
  fold_left f (map g l) a = fold_left (fun acc x => f acc (g x)) l a.
Proof. revert a. induction l; simpl; auto. Qed.

Lemma setitem_at_length {A} (l1 l2 : list A) x v :
  setitem (l1 ++ x :: l2) (length l1) v = l1 ++ v :: l2.
Proof. induction l1; simpl; [reflexivity | rewrite IHl1; reflexivity]. Qed.

Lemma firstn_succ {A} (l : list A) k d :
  (k < length l)%nat -> firstn (S k) l = firstn k l ++ [nth k l d].
Proof.
  revert k. induction l as [| a l IH]; intros k Hk; simpl in Hk; [lia |].
  destruct k; simpl; [reflexivity |].
  f_equal. apply IH. lia.
Qed.

Lemma xor_zip_app a1 a2 b1 b2 :
  length a1 = length b1 ->
  xor_zip (a1 ++ a2) (b1 ++ b2) = xor_zip a1 b1 ++ xor_zip a2 b2.
Proof.
  revert b1. induction a1 as [| x a1 IH]; intros [| y b1] Hlen;
    simpl in Hlen; try discriminate; [reflexivity |].
  cbn. f_equal. apply IH. congruence.
Qed.

Lemma xor_zip_length a b : length (xor_zip a b) = Nat.min (length a) (length b).
Proof. unfold xor_zip. rewrite length_map. apply length_combine. Qed.

Lemma xor_zip_nth a b i :
  (i < length a)%nat -> (i < length b)%nat ->
  nth i (xor_zip a b) x00 = Bytes.xor (nth i a x00) (nth i b x00).
Proof.
  revert b i. induction a as [| x a IH]; intros b i Ha Hb; simpl in Ha; [lia |].
  destruct b as [| y b]; simpl in Hb; [lia |].
  destruct i; [reflexivity |].
  cbn. apply IH; lia.
Qed.

(** The loop of lines 669-670 after its first k turns. *)
Lemma fast_mix_turns size emergency_seed client_bytes k :
  (k <= length client_bytes)%nat ->
  (k <= size)%nat ->
  length emergency_seed = size ->
  fold_left
    (fun mixed_seed i =>
       setitem mixed_seed (Z.to_nat (Z.of_nat i))
         (Bytes.xor (nth (Z.to_nat (Z.of_nat i)) emergency_seed x00)
            (nth (Z.to_nat (Z.of_nat i mod len client_bytes)) client_bytes x00)))
    (seq 0 k) (Bytes.zeros size)
  = xor_zip (firstn k emergency_seed) (firstn k client_bytes)
    ++ Bytes.zeros (size - k).
Proof.
  intros Hclient Hsize Hseed. induction k as [| k IH].
  - simpl. rewrite Nat.sub_0_r. reflexivity.
  - rewrite seq_S, fold_left_app, IH by lia. cbn [fold_left Nat.add].
    rewrite Nat2Z.id.
    replace (Z.to_nat (Z.of_nat k mod len client_bytes)) with k
      by (unfold len; rewrite Z.mod_small by lia; lia).
    replace (size - k)%nat with (S (size - S k)) by lia.
    unfold Bytes.zeros at 1. cbn [repeat].
    assert (length (xor_zip (firstn k emergency_seed) (firstn k client_bytes)) = k)
      as Hprefix.
    { rewrite xor_zip_length, !length_firstn. lia. }
    pose proof (@setitem_at_length _
                  (xor_zip (firstn k emergency_seed) (firstn k client_bytes))
                  (repeat x00 (size - S k)) x00
                  (Bytes.xor (nth k emergency_seed x00) (nth k client_bytes x00)))
      as Hset.
    rewrite Hprefix in Hset. rewrite Hset.
    rewrite (@firstn_succ _ emergency_seed k x00) by lia.
    rewrite (@firstn_succ _ client_bytes k x00) by lia.
    rewrite xor_zip_app by (rewrite !length_firstn; lia).
    rewrite <- app_assoc. reflexivity.
Qed.

(** What the fast path computes: the client's bytes are XORed over the
    first [len client_bytes] random bytes, and every byte after them is a
    zero of the fresh [bytearray(seed_size)]. *)
Lemma fast_mix_value seed_size emergency_seed client_bytes :
  len client_bytes <= seed_size ->
  len emergency_seed = seed_size ->
  fast_mix seed_size emergency_seed client_bytes
  = xor_zip (firstn (length client_bytes) emergency_seed) client_bytes
    ++ Bytes.zeros (Z.to_nat seed_size - length client_bytes).
Proof.
  intros Hshort Hseed. unfold fast_mix, range.
  rewrite Z.min_l by assumption.
  change (Z.to_nat (len client_bytes))
    with (Z.to_nat (Z.of_nat (length client_bytes))).
  rewrite Nat2Z.id, fold_left_map.
  rewrite (@fast_mix_turns (Z.to_nat seed_size) emergency_seed client_bytes
             (length client_bytes)) by (unfold len in *; lia).
  rewrite firstn_all. reflexivity.
Qed.

(** C6 (the code breaks it on the fast path). The claim: with a client
    entropy of L < size bytes, mixed[i] = base[i] XOR client[i mod L] for
    every i below size, on both paths. The fast path's loop runs over
    [range(min(len(client_bytes), seed_size))] only, writing into a
    zeroed buffer: for i < L the byte is base[i] XOR client[i], and for
    every i from L up to size it is 0, whatever the random bytes and the
    client's bytes are. *)
Theorem fast_path_mixing_stops_at_the_client_length
        seed_size emergency_seed client_bytes i :
  0 < len client_bytes < seed_size ->
  len emergency_seed = seed_size ->
  (i < Z.to_nat seed_size)%nat ->
  nth i (fast_mix seed_size emergency_seed client_bytes) x00
  = if (i <? length client_bytes)%nat
    then Bytes.xor (nth i emergency_seed x00) (nth i client_bytes x00)
    else x00.
Proof.
  intros Hclient Hseed Hi.
  rewrite fast_mix_value by lia. unfold len in *.
  destruct (Nat.ltb_spec i (length client_bytes)) as [Hin | Hout].
  - rewrite app_nth1
      by (rewrite xor_zip_length, length_firstn; lia).
    rewrite xor_zip_nth by (rewrite ?length_firstn; lia).
    rewrite nth_firstn.
    destruct (Nat.ltb_spec i (length client_bytes)); [reflexivity | lia].
  - rewrite app_nth2
      by (rewrite xor_zip_length, length_firstn; lia).
    unfold Bytes.zeros. apply nth_repeat.
Qed.

Lemma mul_length {A} (l : list A) (k : nat) :
  length (concat (repeat l k)) = (k * length l)%nat.
Proof. induction k; simpl; [reflexivity | rewrite length_app, IHk; reflexivity]. Qed.

Lemma mul_nth {A} (l : list A) (k i : nat) d :
  (i < k * length l)%nat ->
  nth i (concat (repeat l k)) d = nth (i mod length l) l d.
Proof.
  revert i. induction k as [| k IH]; intros i Hi; [simpl in Hi; lia |].
  cbn [repeat concat].
  assert (length l <> 0)%nat as Hpos by (destruct l; simpl in *; lia).
  destruct (Nat.lt_ge_cases i (length l)) as [Hin | Hout].
  - rewrite app_nth1 by assumption. rewrite Nat.mod_small by assumption.
    reflexivity.
  - rewrite app_nth2 by assumption. rewrite IH by (simpl in Hi; lia).
    f_equal.
    replace i with ((i - length l) + 1 * length l)%nat at 2 by lia.
    rewrite Nat.Div0.mod_add. reflexivity.
Qed.

(** The standard path does what the claim says: the client's bytes are
    repeated until they cover the seed, then XORed over all of it. *)
Lemma standard_path_mixing_wraps size extra_entropy client_bytes seed_bytes :
  fromhex extra_entropy = Some client_bytes ->
  0 < len client_bytes < size ->
  len seed_bytes = size ->
  exists mixed,
    mix_extra_entropy size extra_entropy seed_bytes = inr mixed /\
    length mixed = Z.to_nat size /\
    forall i,
      (i < Z.to_nat size)%nat ->
      nth i mixed x00
      = Bytes.xor (nth i seed_bytes x00)
          (nth (i mod length client_bytes) client_bytes x00).
Proof.
  intros Hhex Hclient Hseed. unfold mix_extra_entropy. rewrite Hhex.
  destruct (Z.ltb_spec (len client_bytes) size) as [_ | Hge]; [| lia].
  destruct (Z.eqb_spec (len client_bytes) 0) as [Hzero | _]; [lia |].
  eexists. split; [reflexivity |].
  set (k := Z.to_nat (size / len client_bytes + 1)).
  assert (Z.to_nat size < k * length client_bytes)%nat as Hcover.
  { unfold len in *. subst k.
    pose proof (Z.mod_pos_bound size (Z.of_nat (length client_bytes)) ltac:(lia)).
    pose proof (Z.div_mod size (Z.of_nat (length client_bytes)) ltac:(lia)).
    pose proof (Z.div_pos size (Z.of_nat (length client_bytes)) ltac:(lia) ltac:(lia)).
    nia. }
  rewrite slice_to_firstn by lia. unfold mul. fold k.
  unfold len in *. split.
  - rewrite xor_zip_length, length_firstn, mul_length. lia.
  - intros i Hi.
    rewrite xor_zip_nth by (rewrite ?length_firstn, ?mul_length; lia).
    rewrite nth_firstn.
    destruct (Nat.ltb_spec i (Z.to_nat size)); [| lia].
    rewrite mul_nth by lia. reflexivity.
Qed.

Lemma fast_path_mixing_stops_at_the_client_length_witness :
  nth 1 (fast_mix 4 [x01; x02; x03; x04] [xff]) x00 = x00.
Proof.
  apply (@fast_path_mixing_stops_at_the_client_length
           4 [x01; x02; x03; x04] [xff] 1%nat);
    [split; reflexivity | reflexivity | vm_compute; lia].
Defined.

End Mixing.

(** ** Condensing a collector's output *)

Module Condense.

Import Py Server Facts.

(** [chunk_size], as a number of list elements. *)
Local Abbreviation chunk := (1024 * 10)%nat.

Lemma fold_left_extend {A B} (f : B -> list A) l acc :
  fold_left (fun hashed x => hashed ++ f x) l acc = acc ++ flat_map f l.
Proof.
  revert acc. induction l as [| x l IH]; intros acc; simpl.
  - rewrite app_nil_r. reflexivity.
  - rewrite IH, app_assoc. reflexivity.
Qed.

Lemma flat_map_sha256_length l :
  length (flat_map sha256 l) = (32 * length l)%nat.
Proof.
  induction l as [| x l IH]; [reflexivity |].
  cbn [flat_map length]. rewrite length_app, IH.
  unfold sha256. rewrite sha256_length. lia.
Qed.

(** The number of 10 KB pieces of a buffer of L bytes. *)
Lemma chunks_fuel_by_index fuel (b : bytes) :
  (length b <= fuel)%nat ->
  Bytes.chunks_fuel fuel chunk b
  = map (fun i => firstn chunk (skipn (i * chunk) b))
        (seq 0 ((length b + (chunk - 1)) / chunk)).
Proof.
  revert b. induction fuel as [| fuel IH]; intros b Hfuel.
  - destruct b; [reflexivity | simpl in Hfuel; lia].
  - destruct b as [| x b]; [reflexivity |].
    remember (x :: b) as buf eqn:Hbuf.
    assert (0 < length buf)%nat as Hpos by (subst buf; simpl; lia).
    assert (Bytes.chunks_fuel (S fuel) chunk buf
            = firstn chunk buf :: Bytes.chunks_fuel fuel chunk (skipn chunk buf))
      as -> by (subst buf; reflexivity).
    rewrite IH by (rewrite length_skipn; lia).
    rewrite length_skipn.
    replace ((length buf + (chunk - 1)) / chunk)%nat
      with (S ((length buf - chunk + (chunk - 1)) / chunk)).
    2:{ destruct (Nat.lt_ge_cases (length buf) chunk) as [Hsmall | Hbig].
        - replace (length buf - chunk)%nat with 0%nat by lia.
          rewrite (Nat.div_small (0 + (chunk - 1)) chunk) by lia.
          apply Nat.div_unique with (r := (length buf - 1)%nat); lia.
        - replace (length buf + (chunk - 1))%nat
            with ((length buf - chunk + (chunk - 1)) + 1 * chunk)%nat by lia.
          rewrite Nat.div_add by lia. lia. }
    rewrite <- cons_seq, <- seq_shift. cbn [map]. rewrite map_map.
    f_equal. apply map_ext. intros i.
    rewrite skipn_skipn. do 2 f_equal. lia.
Qed.

Lemma chunks_length (b : bytes) :
  length (Bytes.chunks chunk b) = ((length b + (chunk - 1)) / chunk)%nat.
Proof.
  unfold Bytes.chunks. rewrite chunks_fuel_by_index by lia.
  rewrite length_map, length_seq. reflexivity.
Qed.

(** The slice the loop takes at its turn i. *)
Lemma loop_slice (b : bytes) i :
  (i * chunk <= length b)%nat ->
  slice b (Z.of_nat i * (1024 * 10))
          (Z.min (Z.of_nat i * (1024 * 10) + 1024 * 10) (len b))
  = firstn chunk (skipn (i * chunk) b).
Proof.
  intros Hi. unfold slice, len in *.
  rewrite !clamp_in_range by lia.
  replace (Z.to_nat (Z.of_nat i * (1024 * 10))) with (i * chunk)%nat by lia.
  remember (skipn (i * chunk) b) as rest eqn:Hrest.
  assert (length rest = (length b - i * chunk)%nat) as Hlen
    by (subst rest; apply length_skipn).
  destruct (Nat.le_gt_cases chunk (length rest)) as [Hfull | Hlast].
  - f_equal. lia.
  - rewrite !firstn_all2 by lia. reflexivity.
Qed.

(** C9. Above the 10 KB threshold the output of the condensing tail of
    [process_video] is the concatenation of the SHA-256 digests of the
    consecutive 10 KB pieces of the buffer, 32 bytes for each of the
    ceil(L/10240) pieces, which is never more than the L bytes that came
    in; at or below the threshold it is the digest of the whole buffer
    followed by the buffer's first 1024 bytes. *)
Theorem condense_output_spec (entropy_bytes : bytes) :
  condense_output entropy_bytes
  = (if len entropy_bytes >? 10240
     then flat_map sha256 (Bytes.chunks chunk entropy_bytes)
     else sha256 entropy_bytes ++ firstn 1024 entropy_bytes)
  /\
  (10240 < len entropy_bytes ->
   len (condense_output entropy_bytes)
   = 32 * ((len entropy_bytes + 10239) / 10240)
   /\ len (condense_output entropy_bytes) <= len entropy_bytes).
Proof.
  assert (condense_output entropy_bytes
          = (if len entropy_bytes >? 10240
             then flat_map sha256 (Bytes.chunks chunk entropy_bytes)
             else sha256 entropy_bytes ++ firstn 1024 entropy_bytes)) as Hvalue.
  { unfold condense_output. change (1024 * 10) with 10240.
    destruct (len entropy_bytes >? 10240) eqn:Hbig.
    - rewrite fold_left_extend. cbn [app].
      unfold Bytes.chunks. rewrite chunks_fuel_by_index by lia.
      unfold range. rewrite !flat_map_concat_map, !map_map. f_equal.
      assert (Z.to_nat (len entropy_bytes / 10240
                        + (if len entropy_bytes mod 10240 =? 0 then 0 else 1))
              = ((length entropy_bytes + (chunk - 1)) / chunk)%nat) as ->.
      { unfold len. apply Nat2Z.inj. rewrite Nat2Z.inj_div.
        replace (Z.of_nat chunk) with 10240 by lia.
        replace (Z.of_nat (length entropy_bytes + (chunk - 1)))
          with (Z.of_nat (length entropy_bytes) + 10239) by lia.
        destruct (Z.eqb_spec (Z.of_nat (length entropy_bytes) mod 10240) 0);
          rewrite Z2Nat.id by (Z.to_euclidean_division_equations; lia);
          Z.to_euclidean_division_equations; lia. }
      apply map_ext_in. intros i Hi. apply in_seq in Hi. f_equal.
      change 10240 with (1024 * 10).
      apply loop_slice.
      pose proof (Nat.Div0.mul_div_le (length entropy_bytes + (chunk - 1)) chunk).
      lia.
    - rewrite slice_to_firstn by lia. reflexivity. }
  split; [exact Hvalue |].
  intros Hbig. rewrite Hvalue.
  destruct (Z.gtb_spec (len entropy_bytes) 10240) as [_ | Hsmall]; [| lia].
  unfold len in *. rewrite flat_map_sha256_length, chunks_length.
  rewrite Nat2Z.inj_mul, Nat2Z.inj_div.
  replace (Z.of_nat chunk) with 10240 by lia.
  replace (Z.of_nat (length entropy_bytes + (chunk - 1)))
    with (Z.of_nat (length entropy_bytes) + 10239) by lia.
  split; [lia | Z.to_euclidean_division_equations; lia].
Qed.

Lemma condense_output_spec_witness :
  len (condense_output (repeat x61 (Z.to_nat 10241))) = 64
  /\ len (condense_output (repeat x61 (Z.to_nat 10241)))
     <= len (repeat x61 (Z.to_nat 10241)).
Proof.
  destruct (@condense_output_spec (repeat x61 (Z.to_nat 10241))) as [_ Hlong].
  destruct Hlong as [Hlen Hle]; [vm_compute; reflexivity |].
  split; [| exact Hle].
  rewrite Hlen. vm_compute. reflexivity.
Defined.

End Condense.

(** ** How the code's control flow composes *)

Module Flow.

Import Py Server Facts Locking Site.
Local Open Scope py_scope.

Section WithEnv.
Variable env : Env.

Lemma bind_ret_inv {A B} (c : M A) (k : A -> M B) t w b w' :
bind c k t w = Ret b w' ->
exists a w1, c t w = Ret a w1 /\ k a t w1 = Ret b w'.
Proof.
unfold bind. destruct (c t w) as [a w1 | e w1 | w1]; intros H;
  try discriminate. eauto.
Qed.

(** *** Code that returns *)

Lemma returns_ret {A} (a : A) t w Q : Q a w -> returns (ret a) t w Q.
Proof. intros H. exists a, w. split; [reflexivity | exact H]. Qed.

Lemma returns_bind {A B} (c : M A) (k : A -> M B) t w Q :
returns c t w (fun a w1 => returns (k a) t w1 Q) ->
returns (bind c k) t w Q.
Proof.
intros (a & w1 & Hc & b & w2 & Hk & HQ).
exists b, w2. unfold bind. rewrite Hc. split; assumption.
Qed.

Lemma returns_consequence {A} (c : M A) t w (Q Q' : A -> World -> Prop) :
returns c t w Q -> (forall a w', Q a w' -> Q' a w') -> returns c t w Q'.
Proof. intros (a & w' & Hc & HQ) Himp. exists a, w'. auto. Qed.

Lemma returns_get {A} (f : World -> A) t w Q :
Q (f w) w -> returns (get f) t w Q.
Proof. intros H. exists (f w), w. split; [reflexivity | exact H]. Qed.

Lemma returns_modify (f : World -> World) t w Q :
Q tt (f w) -> returns (modify f) t w Q.
Proof. intros H. exists tt, (f w). split; [reflexivity | exact H]. Qed.

Lemma returns_logger r t w Q :
Q tt (add_log r w) -> returns (logger r) t w Q.
Proof. apply returns_modify. Qed.

Lemma returns_time_time t w Q : Q (clock w) w -> returns time_time t w Q.
Proof. apply returns_get. Qed.

Lemma returns_time_sleep d t w Q :
Q tt (set_clock (clock w + d)%Q w) -> returns (time_sleep d) t w Q.
Proof. apply (returns_modify (fun w => set_clock (clock w + d)%Q w)). Qed.

Lemma returns_pool_extend b t w Q :
Q tt (set_pool (entropy_pool w ++ b) w) -> returns (pool_extend b) t w Q.
Proof. apply (returns_modify (fun w => set_pool (entropy_pool w ++ b) w)). Qed.

Lemma returns_os_urandom n t w Q :
0 <= n ->
Q (urandom_bytes env (Z.to_nat n) w) (set_tick (tick w + Z.to_nat n) w) ->
returns (os_urandom env n) t w Q.
Proof.
intros Hn H. eexists; eexists. split; [apply os_urandom_nonneg, Hn | exact H].
Qed.

Lemma returns_draw_text t w Q :
Q (text_source env (tick w)) (set_tick (S (tick w)) w) ->
returns (draw_text env) t w Q.
Proof. intros H. eexists; eexists. split; [reflexivity | exact H]. Qed.

Lemma returns_try_except {A} (body : M A) handler t w Q :
returns body t w Q -> returns (try_except body handler) t w Q.
Proof.
intros (a & w' & Hb & HQ). exists a, w'.
unfold try_except. rewrite Hb. split; [reflexivity | exact HQ].
Qed.

Lemma returns_try_finally {A} (body : M A) cleanup t w Q :
returns body t w (fun a w1 => returns cleanup t w1 (fun _ w2 => Q a w2)) ->
returns (try_finally body cleanup) t w Q.
Proof.
intros (a & w1 & Hb & u & w2 & Hc & HQ). exists a, w2.
unfold try_finally. rewrite Hb. unfold bind. rewrite Hc.
split; [reflexivity | exact HQ].
Qed.

(** [with entropy_lock] entered with the lock free: the body runs
  with the lock held, and the lock is free again after it. *)
Lemma returns_with_entropy_lock {A} (body : M A) t w Q :
entropy_lock w = None ->
returns body t (set_lock (Some t) w) (fun a w1 => Q a (set_lock None w1)) ->
returns (with_entropy_lock body) t w Q.
Proof.
intros Hfree (a & w1 & Hb & HQ). exists a, (set_lock None w1).
unfold with_entropy_lock, bind, acquire. rewrite Hfree.
unfold try_finally. rewrite Hb. split; [reflexivity | exact HQ].
Qed.

(** *** Code that cannot raise *)

Lemma never_raises_ret {A} (a : A) : never_raises (ret a).
Proof. intros t w e w' H. discriminate H. Qed.

Lemma never_raises_get {A} (f : World -> A) : never_raises (get f).
Proof. intros t w e w' H. discriminate H. Qed.

Lemma never_raises_modify f : never_raises (modify f).
Proof. intros t w e w' H. discriminate H. Qed.

Lemma never_raises_logger r : never_raises (logger r).
Proof. apply never_raises_modify. Qed.

Lemma never_raises_bind {A B} (c : M A) (k : A -> M B) :
never_raises c -> (forall a, never_raises (k a)) -> never_raises (bind c k).
Proof.
intros Hc Hk t w e w'. unfold bind.
destruct (c t w) as [a w1 | e1 w1 | w1] eqn:E.
- apply Hk.
- exfalso. exact (Hc _ _ _ _ E).
- discriminate.
Qed.

Lemma never_raises_try_except {A} (body : M A) handler :
(forall e, never_raises (handler e)) -> never_raises (try_except body handler).
Proof.
intros Hh t w e w'. unfold try_except.
destruct (body t w) as [a w1 | e1 w1 | w1]; try discriminate. apply Hh.
Qed.

Lemma never_raises_try_finally {A} (body : M A) cleanup :
never_raises body -> never_raises cleanup ->
never_raises (try_finally body cleanup).
Proof.
intros Hb Hc t w e w'. unfold try_finally.
destruct (body t w) as [a w1 | e1 w1 | w1] eqn:E.
- apply never_raises_bind; [exact Hc | intros; apply never_raises_ret].
- exfalso. exact (Hb _ _ _ _ E).
- discriminate.
Qed.

Lemma never_raises_with_entropy_lock {A} (body : M A) :
never_raises body -> never_raises (with_entropy_lock body).
Proof.
intros Hb. unfold with_entropy_lock. apply never_raises_bind.
- intros t w e w'. unfold acquire. destruct (entropy_lock w); discriminate.
- intros _. apply never_raises_try_finally; [exact Hb |].
  apply never_raises_modify.
Qed.

Lemma never_raises_os_urandom n : 0 <= n -> never_raises (os_urandom env n).
Proof.
intros Hn t w e w'. rewrite os_urandom_nonneg by exact Hn. discriminate.
Qed.

End WithEnv.

End Flow.

(** ** Refreshing the pool with the lock free *)

Module Refresh.

Import Py Server Facts Locking Site Flow.
Local Open Scope py_scope.

Lemma only_appends_refl w : only_appends w w.
Proof.
  repeat split. exists []. rewrite app_nil_r. reflexivity.
Qed.

Lemma only_appends_trans w1 w2 w3 :
  only_appends w1 w2 -> only_appends w2 w3 -> only_appends w1 w3.
Proof.
  intros ((a & Ha) & Hl & Hf & Ht & Hc) ((b & Hb) & Hl' & Hf' & Ht' & Hc').
  repeat split; try congruence.
  exists (a ++ b). rewrite Hb, Ha, app_assoc. reflexivity.
Qed.

Lemma only_appends_len w w' :
  only_appends w w' -> len (entropy_pool w) <= len (entropy_pool w').
Proof.
  intros ((a & Ha) & _). rewrite Ha, len_app. pose proof (len_nonneg a). lia.
Qed.

(** Discharges [only_appends w (setters ... w)], the pool left alone
    or appended to. *)
Ltac grow :=
  unfold only_appends;
  cbn [entropy_pool last_refresh_time entropy_lock refresh_in_progress
       last_refresh_attempt consecutive_failures clock tick log
       set_pool set_last_refresh_time set_lock set_in_progress
       set_last_refresh_attempt set_consecutive_failures set_clock set_tick
       add_log];
  repeat split; try reflexivity; try congruence;
  first [ exists []; rewrite app_nil_r; reflexivity
        | eexists; reflexivity ].

Ltac fields :=
  cbn [entropy_pool last_refresh_time entropy_lock refresh_in_progress
       last_refresh_attempt consecutive_failures clock tick log
       set_pool set_last_refresh_time set_lock set_in_progress
       set_last_refresh_attempt set_consecutive_failures set_clock set_tick
       add_log] in *.

Ltac step :=
  first
    [ apply returns_bind
    | apply returns_ret
    | apply returns_logger
    | apply returns_time_time
    | apply returns_time_sleep
    | apply returns_pool_extend
    | apply returns_draw_text
    | apply returns_get
    | apply returns_modify
    | apply returns_os_urandom; [lia |]
    | apply returns_try_except ].

Section WithEnv.
Variable env : Env.

(** The loop of lines 464-468 appends 64 bytes a turn until the pool
  holds ENTROPY_POOL_SIZE bytes, and touches nothing else. *)
Lemma fill_pool_spec final_entropy w :
only_appends w (fill_pool env final_entropy w) /\
ENTROPY_POOL_SIZE <= len (entropy_pool (fill_pool env final_entropy w)) /\
last_refresh_time (fill_pool env final_entropy w) = last_refresh_time w /\
clock (fill_pool env final_entropy w) = clock w /\
log (fill_pool env final_entropy w) = log w.
Proof.
apply (fill_pool_elim env
         (fun _ w r =>
            only_appends w r /\
            ENTROPY_POOL_SIZE <= len (entropy_pool r) /\
            last_refresh_time r = last_refresh_time w /\
            clock r = clock w /\ log r = log w)).
- intros f w0 Hlt IH _. cbv zeta in IH.
  destruct IH as (Happ & Hlen & Hlast & Hclock & Hlog).
  split; [| auto].
  eapply only_appends_trans; [| exact Happ]. grow.
- intros f w0 Hge _. split; [apply only_appends_refl |].
  repeat split; try reflexivity. lia.
Qed.

Lemma process_video_returns c t w (Q : bytes -> World -> Prop) :
(forall b w1, only_appends w w1 -> Q b w1) ->
returns (process_video env c) t w Q.
Proof.
intros HQ. unfold process_video.
destruct c as [| | entropy_data |];
  try (step; apply HQ; grow).
destruct (len entropy_data =? 0); step; apply HQ;
  [grow | apply only_appends_refl].
Qed.

Lemma run_video_returns video video_timeout t w
    (Q : option bytes -> World -> Prop) :
(forall joined w1, only_appends w w1 -> Q joined w1) ->
returns (run_video env video video_timeout) t w Q.
Proof.
intros HQ. unfold returns, run_video.
destruct (video_source env (tick w) video) as [c seconds].
destruct (Qlt_bool video_timeout seconds).
- eexists; eexists. split; [reflexivity |]. apply HQ. grow.
- change (returns (video_result <- process_video env c ;;
                   time_sleep seconds ;; ret (Some video_result))
                  t (set_tick (S (tick w)) w) Q).
  step. apply process_video_returns. intros b w1 H1.
  step. step. step. apply HQ.
  eapply only_appends_trans; [| eapply only_appends_trans; [exact H1 |]];
    grow.
Qed.

(** The video loop, entered with the lock free: whatever the decoder
  does, the loop ends and has only appended to the pool. *)
Lemma video_loop_returns start_time videos all_entropy t w
    (Q : bytes -> World -> Prop) :
entropy_lock w = None ->
(forall b w1, only_appends w w1 -> Q b w1) ->
returns (video_loop env start_time videos all_entropy) t w Q.
Proof.
revert all_entropy w Q.
induction videos as [| video rest IH]; intros all_entropy w Q Hfree HQ;
  cbn [video_loop].
- step. apply HQ, only_appends_refl.
- step. step.
  destruct (Qle_bool (Float64.fsub 90 (Float64.fsub (clock w) start_time)) 0).
  + step. step. step. apply HQ. grow.
  + step. apply returns_try_except. step.
    apply run_video_returns. intros joined w1 H1.
    assert (entropy_lock w1 = None) as Hfree1.
    { destruct H1 as (_ & Hl & _). congruence. }
    step.
    assert (forall Q',
               (forall b w2, only_appends w1 w2 -> Q' b w2) ->
               returns
                 match joined with
                 | None => logger VideoThreadHung ;; os_urandom env (1024 * 10)
                 | Some [] => os_urandom env (1024 * 10)
                 | Some video_result => ret video_result
                 end t w1 Q') as Hdata.
    { intros Q' HQ'. destruct joined as [[| b0 r0] |].
      - step. apply HQ'. grow.
      - step. apply HQ', only_appends_refl.
      - step. step. step. apply HQ'. grow. }
    apply Hdata. intros video_data w2 H2.
    assert (entropy_lock w2 = None) as Hfree2.
    { destruct H2 as (_ & Hl & _). congruence. }
    apply returns_try_except. step.
    apply returns_with_entropy_lock; [exact Hfree2 |].
    step. step.
    apply IH.
    * reflexivity.
    * intros b w3 H3. apply HQ.
      eapply only_appends_trans; [exact H1 |].
      eapply only_appends_trans; [exact H2 |].
      eapply only_appends_trans; [| exact H3].
      unfold only_appends. cbn. rewrite Hfree2.
      repeat split; try reflexivity. eexists; reflexivity.
Qed.

Lemma collect_system_entropy_returns t w readings
    (Q : bytes -> World -> Prop) :
system_source env (tick w) = inr readings ->
(forall b w1, only_appends w w1 -> Q b w1) ->
returns (collect_system_entropy env) t w Q.
Proof.
intros Hsrc HQ. unfold returns, collect_system_entropy. rewrite Hsrc.
change (returns (r <- os_urandom env 256 ;; ret (readings ++ r))
                t (set_tick (S (tick w)) w) Q).
step. step. step. apply HQ. grow.
Qed.

Lemma sha512_len data : len (compute_hash data "sha512") = 64.
Proof. rewrite compute_hash_sha512. unfold len. rewrite sha512_length. reflexivity. Qed.

(** A refresh whose collector returns, entered with the lock free. *)
Lemma refresh_collected_returns t w readings (Q : unit -> World -> Prop) :
entropy_lock w = None ->
system_source env (tick w) = inr readings ->
(forall w',
    only_appends w w' ->
    ENTROPY_POOL_SIZE <= len (entropy_pool w') ->
    len (entropy_pool w) + 128 <= len (entropy_pool w') ->
    last_refresh_time w' = clock w' ->
    Q tt w') ->
returns (refresh_entropy_pool env) t w Q.
Proof.
intros Hfree Hsrc HQ. unfold refresh_entropy_pool.
step. step. step. step. apply returns_try_except. step.
apply collect_system_entropy_returns with (readings := readings);
  [exact Hsrc |].
intros system_entropy w1 H1.
assert (entropy_lock w1 = None) as Hfree1.
{ destruct H1 as (_ & Hl & _). fields. congruence. }
step. apply returns_with_entropy_lock; [exact Hfree1 |].
step. step. step.
set (w2 := set_lock None _).
assert (only_appends w1 w2 /\ len (entropy_pool w2) = len (entropy_pool w1) + 64)
  as (H2 & Hlen2).
{ subst w2. split.
  - unfold only_appends. fields. rewrite Hfree1.
    repeat split; try reflexivity. eexists; reflexivity.
  - fields. rewrite len_app, sha512_len. reflexivity. }
assert (entropy_lock w2 = None) as Hfree2 by reflexivity.
clearbody w2.
step.
assert (forall Q',
           (forall b w3, only_appends w2 w3 -> Q' b w3) ->
           returns
             match VIDEO_FILES env with
             | [] =>
                 logger NoVideoFiles ;;
                 extra_randomness <- os_urandom env (1024 * 100) ;;
                 ret (system_entropy ++ extra_randomness)
             | _ :: _ =>
                 videos_to_process <-
                   (fun _ w => Ret (shuffle_source env (tick w) (VIDEO_FILES env))
                                   (set_tick (S (tick w)) w)) ;;
                 video_loop env (clock (add_log RefreshingEntropyPool w))
                   videos_to_process system_entropy
             end t w2 Q') as Hall.
{ intros Q' HQ'. destruct (VIDEO_FILES env) as [| v vs].
  - step. step. step. step. step. apply HQ'. grow.
  - step. eexists; eexists. split; [reflexivity |].
    apply video_loop_returns; [exact Hfree2 |].
    intros b w3 H3. apply HQ'.
    eapply only_appends_trans; [| exact H3]. grow. }
apply Hall. intros all_entropy w3 H3.
assert (entropy_lock w3 = None) as Hfree3.
{ destruct H3 as (_ & Hl & _). congruence. }
step. step.
apply returns_with_entropy_lock; [exact Hfree3 |].
step. step. step. step. step. step. step.
set (final_entropy := compute_hash _ "sha512").
set (w4 := set_pool _ _).
destruct (fill_pool_spec final_entropy w4)
  as (Hfill & Hsize & Hlast & Hclock & Hlog).
assert (len (entropy_pool w4) = len (entropy_pool w3) + 64) as Hlen4.
{ subst w4 final_entropy. fields. rewrite len_app, sha512_len. reflexivity. }
pose proof (only_appends_len Hfill) as Hgrow.
pose proof (only_appends_len H1) as Hgrow1.
pose proof (only_appends_len H3) as Hgrow3.
destruct Hfill as ((added & Hpool) & Hl & Hf & Ha & Hc).
apply HQ.
- eapply only_appends_trans; [| eapply only_appends_trans; [exact H1 |]];
    [grow |].
  eapply only_appends_trans; [exact H2 |].
  eapply only_appends_trans; [exact H3 |].
  unfold only_appends. fields. rewrite Hpool, Hf, Ha, Hc.
  subst w4. fields. rewrite Hfree3.
  repeat split. exists (final_entropy ++ added).
  rewrite app_assoc. reflexivity.
- fields. exact Hsize.
- fields. lia.
- reflexivity.
Qed.

(** A refresh whose collector raises, entered with the lock free:
  the handler of lines 474-481 runs. *)
Lemma refresh_failed_returns t w e (Q : unit -> World -> Prop) :
entropy_lock w = None ->
system_source env (tick w) = inl e ->
Q tt (set_lock None
        (set_last_refresh_time (clock w)
           (set_pool (entropy_pool w
                      ++ urandom_bytes env (Z.to_nat (1024 * 10))
                           (set_tick (S (tick w)) w))
              (set_tick (S (tick w) + Z.to_nat (1024 * 10))
                 (set_lock (Some t)
                    (add_log (ErrorRefreshingPool e)
                       (add_log RefreshingEntropyPool w))))))) ->
returns (refresh_entropy_pool env) t w Q.
Proof.
intros Hfree Hsrc HQ. eexists; eexists. split; [| exact HQ].
unfold refresh_entropy_pool, collect_system_entropy. run.
rewrite Hsrc. run. rewrite Hfree. run.
rewrite os_urandom_nonneg by lia. run. reflexivity.
Qed.

Lemma refresh_returns t w (Q : unit -> World -> Prop) :
entropy_lock w = None ->
(forall w',
    only_appends w w' -> last_refresh_time w' = clock w' -> Q tt w') ->
returns (refresh_entropy_pool env) t w Q.
Proof.
intros Hfree HQ. destruct (system_source env (tick w)) as [e | readings] eqn:Hsrc.
- apply refresh_failed_returns with (e := e); [exact Hfree | exact Hsrc |].
  apply HQ; [| reflexivity].
  unfold only_appends. fields. rewrite Hfree.
  repeat split. eexists; reflexivity.
- apply refresh_collected_returns with (readings := readings);
    [exact Hfree | exact Hsrc |].
  intros w' Happ _ _ Hlast. apply HQ; assumption.
Qed.

(** Whoever holds the lock, [refresh_entropy_pool] does not end with
  an exception: its handler catches what the body raises and draws
  a size that [os.urandom] accepts. *)
Lemma refresh_entropy_pool_never_raises :
never_raises (refresh_entropy_pool env).
Proof.
unfold refresh_entropy_pool.
apply never_raises_bind; [apply never_raises_logger | intros _].
apply never_raises_bind; [apply never_raises_get | intros start_time].
apply never_raises_try_except. intros e.
apply never_raises_bind; [apply never_raises_logger | intros _].
apply never_raises_with_entropy_lock.
apply never_raises_bind; [apply never_raises_os_urandom; lia | intros b].
apply never_raises_bind; [apply never_raises_modify | intros _].
apply never_raises_bind; [apply never_raises_get | intros now].
apply never_raises_modify.
Qed.

(** X1. Called with the lock free and a collector that returns,
  [refresh_entropy_pool] returns with the lock free again; the old
  pool is a prefix of the new one, which holds at least
  ENTROPY_POOL_SIZE bytes and at least 128 bytes more than before
  (nothing is ever trimmed); the pool is stamped with the current
  time, and the flag and the scheduler's counters are untouched. *)
Theorem refresh_fills_the_pool t w readings :
entropy_lock w = None ->
system_source env (tick w) = inr readings ->
exists w',
  refresh_entropy_pool env t w = Ret tt w' /\
  entropy_lock w' = None /\
  (exists added, entropy_pool w' = entropy_pool w ++ added) /\
  ENTROPY_POOL_SIZE <= len (entropy_pool w') /\
  len (entropy_pool w) + 128 <= len (entropy_pool w') /\
  last_refresh_time w' = clock w' /\
  refresh_in_progress w' = refresh_in_progress w /\
  consecutive_failures w' = consecutive_failures w.
Proof.
intros Hfree Hsrc.
destruct (@refresh_collected_returns t w readings
            (fun _ w' =>
               only_appends w w' /\
               ENTROPY_POOL_SIZE <= len (entropy_pool w') /\
               len (entropy_pool w) + 128 <= len (entropy_pool w') /\
               last_refresh_time w' = clock w') Hfree Hsrc)
  as ([] & w' & Hrun & (Hadd & Hl & Hf & _ & Hc) & Hsize & Hmore & Hlast);
  [auto |].
exists w'. repeat split; try assumption; congruence.
Qed.

(** X2. Called with the lock free and a collector that raises,
  [refresh_entropy_pool] does not raise: it logs the error, appends
  exactly 10 KB drawn from [os.urandom] to the pool, stamps the pool
  as refreshed and returns with the lock free. *)
Theorem failed_collector_adds_an_emergency_block t w e :
entropy_lock w = None ->
system_source env (tick w) = inl e ->
exists w' emergency_entropy,
  refresh_entropy_pool env t w = Ret tt w' /\
  entropy_pool w' = entropy_pool w ++ emergency_entropy /\
  len emergency_entropy = 1024 * 10 /\
  entropy_lock w' = None /\
  last_refresh_time w' = clock w' /\
  log w' = log w ++ [RefreshingEntropyPool; ErrorRefreshingPool e].
Proof.
intros Hfree Hsrc. eexists; eexists. split.
{ unfold refresh_entropy_pool, collect_system_entropy. run.
  rewrite Hsrc. run. rewrite Hfree. run.
  rewrite os_urandom_nonneg by lia. run. reflexivity. }
fields.
split; [reflexivity |].
split; [unfold len; rewrite urandom_bytes_length; reflexivity |].
repeat split. rewrite <- app_assoc. reflexivity.
Qed.

(** X3. The start-up thread's target, run with the lock free, always
  returns with [refresh_in_progress] cleared and the lock free; the
  pool has only been appended to and is stamped with the current
  time, whether the collector worked or not. *)
Theorem initial_refresh_clears_the_flag t w :
entropy_lock w = None ->
exists w',
  initial_refresh env t w = Ret tt w' /\
  refresh_in_progress w' = false /\
  entropy_lock w' = None /\
  (exists added, entropy_pool w' = entropy_pool w ++ added) /\
  last_refresh_time w' = clock w'.
Proof.
intros Hfree.
assert (returns (initial_refresh env) t w
          (fun _ w' =>
             refresh_in_progress w' = false /\
             entropy_lock w' = None /\
             (exists added, entropy_pool w' = entropy_pool w ++ added) /\
             last_refresh_time w' = clock w')) as ([] & w' & Hrun & H).
{ unfold initial_refresh. apply returns_try_finally.
  apply returns_try_except. apply refresh_returns; [exact Hfree |].
  intros w1 (Hadd & Hl & _) Hlast. step. fields.
  repeat split; try assumption. congruence. }
exists w'. split; assumption.
Qed.


End WithEnv.

Lemma refresh_fills_the_pool_witness :
  exists w',
    refresh_entropy_pool Demo.env InitialRefresh
      (Demo.world (Demo.counting 200) 900 true) = Ret tt w' /\
    ENTROPY_POOL_SIZE <= len (entropy_pool w') /\
    entropy_lock w' = None.
Proof.
  destruct (@refresh_fills_the_pool Demo.env InitialRefresh
              (Demo.world (Demo.counting 200) 900 true)
              (encode "1730685600.12-4242-1-0.03") eq_refl eq_refl)
    as (w' & Hrun & Hl & _ & Hsize & _).
  exists w'. auto.
Defined.

Lemma failed_collector_adds_an_emergency_block_witness :
  let env :=
    {| VIDEO_FILES := [];
       urandom_source := fun n => Bytes.of_Z (7 * Z.of_nat n + 3);
       system_source := fun _ => inl OSError;
       text_source := fun _ => encode "0.8444218515250481";
       shuffle_source := fun _ l => l;
       video_source := fun _ _ => (NoFile, 0%Q) |} in
  exists w' emergency_entropy,
    refresh_entropy_pool env InitialRefresh
      (Demo.world (Demo.counting 200) 900 true) = Ret tt w' /\
    entropy_pool w' = Demo.counting 200 ++ emergency_entropy /\
    len emergency_entropy = 1024 * 10.
Proof.
  intros env.
  destruct (@failed_collector_adds_an_emergency_block env InitialRefresh
              (Demo.world (Demo.counting 200) 900 true) OSError
              eq_refl eq_refl)
    as (w' & b & Hrun & Hpool & Hlen & _).
  exists w', b. auto.
Defined.

Lemma initial_refresh_clears_the_flag_witness :
  exists w',
    initial_refresh Demo.env InitialRefresh
      (Demo.world (Demo.counting 200) 900 true) = Ret tt w' /\
    refresh_in_progress w' = false.
Proof.
  destruct (@initial_refresh_clears_the_flag Demo.env InitialRefresh
              (Demo.world (Demo.counting 200) 900 true) eq_refl)
    as (w' & Hrun & Hflag & _).
  exists w'. auto.
Defined.


End Refresh.

(** ** What the seed endpoint answers *)

Module Requests.

Import Py Server Facts Locking Site Flow.
Local Open Scope py_scope.

Section WithEnv.
Variable env : Env.

Lemma seed_from_pool_never_raises size extra_entropy :
never_raises (seed_from_pool env size extra_entropy).
Proof.
intros t w e w'. unfold seed_from_pool. run.
destruct (Z.geb_spec (len (entropy_pool w)) size) as [Hge | Hlt].
- destruct extra_entropy as [| b | z | s | l | d]; run;
    try (rewrite os_urandom_nonneg by lia; run; discriminate).
  destruct (truthy (JStr s)); run;
    [| rewrite os_urandom_nonneg by lia; run; discriminate].
  destruct (mix_extra_entropy size s _) as [e1 | mixed]; run;
    rewrite os_urandom_nonneg by lia; run; discriminate.
- pose proof (len_nonneg (entropy_pool w)).
  rewrite os_urandom_nonneg by lia. run. discriminate.
Qed.

Lemma generate_entropy_seed_never_raises size extra_entropy :
never_raises (generate_entropy_seed env size extra_entropy).
Proof.
unfold generate_entropy_seed. apply never_raises_with_entropy_lock.
apply never_raises_bind; [apply never_raises_get | intros needed].
apply never_raises_bind.
- destruct needed;
    [apply Refresh.refresh_entropy_pool_never_raises | apply never_raises_ret].
- intros _. apply seed_from_pool_never_raises.
Qed.

(** The one exception that leaves the body of [get_seed] once
  [seed_size] is bound: [os.urandom] refusing a negative size on the
  fast path. *)
Lemma get_seed_body_raise req data seed_size t w e w' :
get_seed_body env req data seed_size t w = Raise e w' ->
seed_size < 0.
Proof.
unfold get_seed_body. run.
destruct (is_critical_path _ && refresh_in_progress w).
- run. destruct (Z.ltb_spec seed_size 0) as [Hneg | Hpos]; [auto |].
  rewrite os_urandom_nonneg by lia. run.
  destruct (truthy _); run; [| discriminate].
  destruct (dict_get_default data "clientEntropy" JNull)
    as [| b | z | s | l | d]; cbn [bytes_fromhex]; run; try discriminate.
  destruct (fromhex s); run; discriminate.
- destruct (generate_entropy_seed env seed_size _ t _)
    as [s w1 | e1 w1 | w1] eqn:E; try discriminate.
  intros _. exfalso.
  exact (@generate_entropy_seed_never_raises _ _ _ _ _ _ E).
Qed.

(** What the body of [get_seed] returns is never the fallback
  response, and its signature is the one of its path. *)
Lemma get_seed_body_ret req data seed_size t w r w' :
get_seed_body env req data seed_size t w = Ret r w' ->
fallback r = false /\ error r = None /\
(if prefetchDuringRefresh r
 then exists final_seed,
     seed r = hex final_seed /\ signature r = hex (sha256 final_seed)
 else signature r
      = hex (sha256 (encode
                       (if existsb (String.eqb (X_API_Key req)) API_KEYS_values
                        then (seed r ++ X_API_Key req)%string
                        else seed r)))).
Proof.
unfold get_seed_body. run.
destruct (is_critical_path _ && refresh_in_progress w).
- run. destruct (os_urandom env seed_size t _) as [b w1 | e1 w1 | w1];
    try discriminate.
  assert (forall (c : M bytes),
             match c t w1 with
             | Ret a w2 =>
                 Ret {| seed := hex (slice_to (compute_hash a "sha256") seed_size);
                        signature :=
                          hex (sha256 (slice_to (compute_hash a "sha256") seed_size));
                        prefetchDuringRefresh := true; fallback := false;
                        error := None |} w2
             | Raise e0 w2 => Raise e0 w2
             | Block w2 => Block w2
             end = Ret r w' ->
             fallback r = false /\ error r = None /\
             (if prefetchDuringRefresh r
              then exists final_seed,
                  seed r = hex final_seed /\
                  signature r = hex (sha256 final_seed)
              else signature r
                   = hex (sha256 (encode
                        (if existsb (String.eqb (X_API_Key req)) API_KEYS_values
                         then (seed r ++ X_API_Key req)%string
                         else seed r))))) as Hshape.
  { intros c. destruct (c t w1) as [a w2 | e0 w2 | w2]; try discriminate.
    intros H. injection H as <- <-. cbn. repeat split.
    eexists. split; reflexivity. }
  destruct (truthy _).
  + apply (Hshape (try_except
              (client_bytes <- bytes_fromhex
                                 (dict_get_default data "clientEntropy" JNull) ;;
               ret (fast_mix seed_size b client_bytes))
              (fun e => logger (ErrorMixingClientEntropy e) ;; ret b))).
  + apply (Hshape (ret b)).
- destruct (generate_entropy_seed env seed_size _ t _)
    as [s w1 | e1 w1 | w1]; try discriminate.
  intros H. injection H as <- <-. cbn. repeat split.
Qed.

(** X5. [get_seed] never answers with its fallback response: whenever
  it returns, the response has [fallback] unset and no [error]. The
  handler of lines 712-725 runs only when [seed_size] is unbound or
  negative, and then [os.urandom(seed_size)] raises inside it. *)
Theorem get_seed_never_returns_the_fallback req t w r w' :
get_seed env req t w = Ret r w' ->
fallback r = false /\ error r = None.
Proof.
assert (forall e0, get_seed_except env None e0 t w <> Ret r w') as Hunbound.
{ intros e0. unfold get_seed_except. run. discriminate. }
unfold get_seed.
destruct (match get_json req with
          | Some j => if truthy j then j else JObj []
          | None => JObj []
          end) as [| b | z | s | l | d];
  try (intros H; exfalso; exact (Hunbound _ H)).
destruct (int _) as [e0 | n]; [intros H; exfalso; exact (Hunbound _ H) |].
unfold try_except.
destruct (get_seed_body env req d (Z.min n 128) t w)
  as [r1 w1 | e1 w1 | w1] eqn:Ebody.
- intros H. injection H as <- <-.
  destruct (get_seed_body_ret _ _ _ _ _ Ebody) as (Hf & He & _). auto.
- apply get_seed_body_raise in Ebody.
  unfold get_seed_except. run. rewrite os_urandom_negative by exact Ebody.
  discriminate.
- discriminate.
Qed.

(** X6. How the body of the request is read. A body that is truthy
  but not an object has no [get]: the request ends with
  UnboundLocalError, raised by the handler because [seed_size] was
  never assigned. A body that is absent or falsy (null, false, 0, an
  empty string, array or object) is served as the empty object: 32
  bytes, purpose general, no client entropy. *)
Theorem body_that_is_not_an_object req t w :
(forall j,
    get_json req = Some j -> truthy j = true -> (forall d, j <> JObj d) ->
    get_seed env req t w
    = Raise UnboundLocalError (add_log (ErrorGeneratingSeed AttributeError) w))
/\
((get_json req = None \/ exists j, get_json req = Some j /\ truthy j = false) ->
 get_seed env req t w
 = try_except (get_seed_body env req [] 32)
              (get_seed_except env (Some 32)) t w).
Proof.
split.
- intros j Hjson Htruthy Hshape. unfold get_seed. rewrite Hjson, Htruthy.
  destruct j as [| b | z | s | l | d]; try reflexivity.
  exfalso. exact (Hshape d eq_refl).
- intros [Hjson | (j & Hjson & Hfalsy)]; unfold get_seed;
    rewrite Hjson; [| rewrite Hfalsy]; reflexivity.
Qed.

End WithEnv.

Lemma get_seed_never_returns_the_fallback_witness :
  exists r w',
    get_seed Demo.env
      (Demo.post [("size"%string, JInt 16); ("purpose"%string, JStr "login")])
      RequestHandler (Demo.world (Demo.counting 200) 900 true) = Ret r w' /\
    fallback r = false /\ error r = None.
Proof.
  eexists; eexists. split; [vm_compute; reflexivity |].
  eapply (@get_seed_never_returns_the_fallback Demo.env
           (Demo.post [("size"%string, JInt 16); ("purpose"%string, JStr "login")])
           RequestHandler (Demo.world (Demo.counting 200) 900 true)).
  vm_compute. reflexivity.
Defined.

Lemma body_that_is_not_an_object_witness :
  get_seed Demo.env
    {| get_json := Some (JArr [JInt 1]); X_API_Key := "development-only-key" |}
    RequestHandler (Demo.world (Demo.counting 200) 900 false)
  = Raise UnboundLocalError
      (add_log (ErrorGeneratingSeed AttributeError)
         (Demo.world (Demo.counting 200) 900 false)).
Proof.
  apply (proj1 (@body_that_is_not_an_object Demo.env
                  {| get_json := Some (JArr [JInt 1]);
                     X_API_Key := "development-only-key" |}
                  RequestHandler (Demo.world (Demo.counting 200) 900 false))
           (JArr [JInt 1]));
    [reflexivity | reflexivity | discriminate].
Defined.

End Requests.

(** ** Serving seeds from a healthy pool *)

Module Serving.

Import Py Float64 Server Facts Locking Site Flow Refresh.
Local Open Scope py_scope.

Section WithEnv.
Variable env : Env.

(** When the test of line 332 fails, the pool holds the bytes asked
  for. *)
Lemma no_refresh_needed size w :
0 <= size ->
refresh_needed size w = false ->
size <= len (entropy_pool w) /\
Qlt_bool REFRESH_INTERVAL (fsub (clock w) (last_refresh_time w)) = false.
Proof.
intros Hsize Hfresh. unfold refresh_needed in Hfresh.
apply orb_false_iff in Hfresh. destruct Hfresh as [Hlow Hstale].
apply Z.ltb_ge in Hlow. split; [lia | exact Hstale].
Qed.

(** The take block on a pool that holds enough: the first [size]
  bytes leave the pool, nothing else of the shared state moves. *)
Lemma seed_from_pool_takes size extra_entropy t w
    (Q : string -> World -> Prop) :
0 <= size <= len (entropy_pool w) ->
(forall data w',
    entropy_pool w' = skipn (Z.to_nat size) (entropy_pool w) ->
    entropy_lock w' = entropy_lock w ->
    last_refresh_time w' = last_refresh_time w ->
    refresh_in_progress w' = refresh_in_progress w ->
    clock w' = clock w ->
    Q (hex (slice_to (sha256 data) size)) w') ->
returns (seed_from_pool env size extra_entropy) t w Q.
Proof.
intros Hsize HQ. unfold returns, seed_from_pool. run.
destruct (Z.geb_spec (len (entropy_pool w)) size); [| lia].
assert (forall (f : World -> World) seed_bytes,
           (forall w0, entropy_pool (f w0) = entropy_pool w0) ->
           (forall w0, entropy_lock (f w0) = entropy_lock w0) ->
           (forall w0, last_refresh_time (f w0) = last_refresh_time w0) ->
           (forall w0, refresh_in_progress (f w0) = refresh_in_progress w0) ->
           (forall w0, clock (f w0) = clock w0) ->
           exists a w',
             match os_urandom env 32 t
                     (f (set_pool (slice_from (entropy_pool w) size) w)) with
             | Ret r w1 =>
                 Ret (hex (slice_to (compute_hash (seed_bytes ++ r) "sha256") size)) w1
             | Raise e w1 => Raise e w1
             | Block w1 => Block w1
             end = Ret a w' /\ Q a w') as Hend.
{ intros f seed_bytes Hp Hl Ht Hf Hc.
  rewrite os_urandom_nonneg by lia.
  eexists; eexists. split; [reflexivity |].
  apply HQ; fields; rewrite ?Hp, ?Hl, ?Ht, ?Hf, ?Hc; fields;
    try reflexivity.
  apply slice_from_skipn. lia. }
destruct extra_entropy as [| b | z | s | l | d]; run;
  try (apply (Hend (fun w0 => w0)); reflexivity).
destruct (truthy (JStr s)); run;
  [| apply (Hend (fun w0 => w0)); reflexivity].
destruct (mix_extra_entropy size s _) as [e1 | mixed]; run.
- apply (Hend (add_log (ClientEntropyFailed e1))); reflexivity.
- apply (Hend (fun w0 => w0)); reflexivity.
Qed.

(** X7. A request on a pool that needs no refresh, with the lock
  free: [generate_entropy_seed] returns a seed cut from a SHA-256
  digest, the first [size] bytes have left the pool, the pool's
  timestamp and the clock are as they were, and the lock is free
  again. *)
Theorem extraction_from_a_healthy_pool size extra_entropy t w :
entropy_lock w = None ->
refresh_needed size w = false ->
0 <= size ->
exists data w',
  generate_entropy_seed env size extra_entropy t w
  = Ret (hex (slice_to (sha256 data) size)) w' /\
  entropy_lock w' = None /\
  entropy_pool w' = skipn (Z.to_nat size) (entropy_pool w) /\
  last_refresh_time w' = last_refresh_time w /\
  refresh_in_progress w' = refresh_in_progress w /\
  clock w' = clock w.
Proof.
intros Hfree Hfresh Hsize.
destruct (@no_refresh_needed size w Hsize Hfresh) as [Hfits _].
assert (returns (generate_entropy_seed env size extra_entropy) t w
          (fun s w' =>
             exists data,
               s = hex (slice_to (sha256 data) size) /\
               entropy_lock w' = None /\
               entropy_pool w' = skipn (Z.to_nat size) (entropy_pool w) /\
               last_refresh_time w' = last_refresh_time w /\
               refresh_in_progress w' = refresh_in_progress w /\
               clock w' = clock w))
  as (s & w' & Hrun & data & -> & H).
{ unfold generate_entropy_seed.
  apply returns_with_entropy_lock; [exact Hfree |].
  apply returns_bind, returns_get.
  change (refresh_needed size (set_lock (Some t) w)) with (refresh_needed size w).
  rewrite Hfresh. apply returns_bind, returns_ret.
  apply seed_from_pool_takes; [fields; lia |].
  intros data w' Hp Hl Ht Hf Hc. exists data. fields.
  repeat split; assumption. }
exists data, w'. split; assumption.
Qed.

(** The same without client entropy, as an equation. *)
Lemma generate_plain size t w :
entropy_lock w = None ->
refresh_needed size w = false ->
0 <= size ->
generate_entropy_seed env size JNull t w
= Ret (hex (slice_to
              (sha256 (firstn (Z.to_nat size) (entropy_pool w)
                       ++ urandom_bytes env 32 w)) size))
      (set_lock None
         (set_tick (tick w + 32)
            (set_pool (skipn (Z.to_nat size) (entropy_pool w))
               (set_lock (Some t) w)))).
Proof.
intros Hfree Hfresh Hsize.
destruct (@no_refresh_needed size w Hsize Hfresh) as [Hfits _].
unfold generate_entropy_seed. run. rewrite Hfree. run.
change (refresh_needed size (set_lock (Some t) w)) with (refresh_needed size w).
rewrite Hfresh. unfold seed_from_pool. run.
destruct (Z.geb_spec (len (entropy_pool w)) size); [| lia].
run. rewrite os_urandom_nonneg by lia. run.
rewrite (slice_to_firstn (entropy_pool w)), slice_from_skipn by lia.
reflexivity.
Qed.

(** X8. Two requests in a row on a pool large and fresh enough for
  both: the second seed is made of the pool bytes that follow the
  ones the first seed was made of, and the pool has lost exactly
  those [n1 + n2] bytes. No byte of the pool feeds two seeds. *)
Theorem consecutive_seeds_use_consecutive_bytes n1 n2 t w :
entropy_lock w = None ->
(clock w - last_refresh_time w <= REFRESH_INTERVAL)%Q ->
0 <= n1 -> 0 <= n2 ->
2 * n1 <= len (entropy_pool w) ->
n1 + 2 * n2 <= len (entropy_pool w) ->
exists r1 r2 w1 w2,
  generate_entropy_seed env n1 JNull t w
  = Ret (hex (slice_to
                (sha256 (firstn (Z.to_nat n1) (entropy_pool w) ++ r1)) n1)) w1 /\
  generate_entropy_seed env n2 JNull t w1
  = Ret (hex (slice_to
                (sha256 (firstn (Z.to_nat n2)
                           (skipn (Z.to_nat n1) (entropy_pool w)) ++ r2)) n2)) w2 /\
  entropy_pool w2 = skipn (Z.to_nat (n1 + n2)) (entropy_pool w) /\
  entropy_lock w2 = None /\
  len r1 = 32 /\ len r2 = 32.
Proof.
intros Hfree Hfresh H1 H2 Hfits1 Hfits2.
assert (Qlt_bool REFRESH_INTERVAL (fsub (clock w) (last_refresh_time w)) = false)
  as Hnot_stale.
{ apply (@Rounding.not_later (clock w) (last_refresh_time w) 300);
    [lia | exact Hfresh]. }
assert (refresh_needed n1 w = false) as Hfresh1.
{ unfold refresh_needed. rewrite Hnot_stale, orb_false_r.
  apply Z.ltb_ge. lia. }
pose proof (@generate_plain n1 t w Hfree Hfresh1 H1) as Hrun1.
set (w1 := set_lock None _) in Hrun1.
assert (len (entropy_pool w1) = len (entropy_pool w) - n1) as Hlen1.
{ subst w1. fields. unfold len in *. rewrite length_skipn. lia. }
assert (refresh_needed n2 w1 = false) as Hfresh2.
{ unfold refresh_needed.
  change (clock w1) with (clock w).
  change (last_refresh_time w1) with (last_refresh_time w).
  rewrite Hnot_stale, orb_false_r. apply Z.ltb_ge. lia. }
pose proof (@generate_plain n2 t w1 eq_refl Hfresh2 H2) as Hrun2.
eexists; eexists; eexists; eexists.
split; [exact Hrun1 |]. split; [exact Hrun2 |].
fields. split; [| repeat split].
subst w1. fields. rewrite skipn_skipn. f_equal. lia.
Qed.

(** A string that [bytes.fromhex] rejects is not empty. *)
Lemma rejected_hex_is_truthy s : fromhex s = None -> truthy (JStr s) = true.
Proof. destruct s; [discriminate | reflexivity]. Qed.

(** X9. A [clientEntropy] that is not valid hexadecimal never fails a
  request and never changes its answer: on the fast path as on the
  standard path the exception of [bytes.fromhex] is caught, and the
  request ends exactly as the same request without [clientEntropy]
  does, with the same response, the same pool and the same lock. *)
Theorem malformed_client_entropy_is_ignored req data data' seed_size s t w :
dict_get_default data "clientEntropy" JNull = JStr s ->
fromhex s = None ->
dict_get_default data' "clientEntropy" JNull = JNull ->
dict_get_default data' "purpose" (JStr "general")
= dict_get_default data "purpose" (JStr "general") ->
match get_seed_body env req data seed_size t w,
      get_seed_body env req data' seed_size t w with
| Ret r w1, Ret r' w2 =>
    r = r' /\ entropy_pool w1 = entropy_pool w2 /\
    entropy_lock w1 = entropy_lock w2
| Raise e w1, Raise e' w2 =>
    e = e' /\ entropy_pool w1 = entropy_pool w2 /\
    entropy_lock w1 = entropy_lock w2
| Block w1, Block w2 =>
    entropy_pool w1 = entropy_pool w2 /\ entropy_lock w1 = entropy_lock w2
| _, _ => False
end.
Proof.
intros Hclient Hbad Hnone Hpurpose.
pose proof (rejected_hex_is_truthy _ Hbad) as Htruthy.
unfold get_seed_body. rewrite Hclient, Hnone, Hpurpose. run.
destruct (is_critical_path _ && refresh_in_progress w).
- run. unfold os_urandom. fields.
  destruct (seed_size <? 0); [repeat split |].
  run. rewrite Htruthy. cbn [truthy bytes_fromhex]. rewrite Hbad. run.
  repeat split.
- unfold generate_entropy_seed. run.
  destruct (entropy_lock w); run; [split; reflexivity |].
  assert (forall w0,
             match seed_from_pool env seed_size (JStr s) t w0,
                   seed_from_pool env seed_size JNull t w0 with
             | Ret a w1, Ret a' w2 =>
                 a = a' /\ entropy_pool w1 = entropy_pool w2 /\
                 entropy_lock w1 = entropy_lock w2
             | _, _ => False
             end) as Hseed.
  { intros w0. unfold seed_from_pool. run.
    destruct (Z.geb_spec (len (entropy_pool w0)) seed_size) as [Hfits | Hfits].
    - rewrite Htruthy. unfold mix_extra_entropy. rewrite Hbad. run.
      rewrite !os_urandom_nonneg by lia. run. repeat split.
    - run. pose proof (len_nonneg (entropy_pool w0)).
      rewrite !os_urandom_nonneg by lia. run. repeat split. }
  destruct ((if refresh_needed seed_size _
             then refresh_entropy_pool env
             else fun _ w => Ret tt w) t _)
    as [u w0 | e0 w0 | w0]; [| repeat split | repeat split].
  specialize (Hseed w0).
  destruct (seed_from_pool env seed_size (JStr s) t w0)
    as [a w1 | e1 w1 | w1];
    destruct (seed_from_pool env seed_size JNull t w0)
      as [a' w2 | e2 w2 | w2]; try contradiction.
  destruct Hseed as (<- & Hpool & Hlock). fields. repeat split; assumption.
Qed.

(** X10. On the fast path a [clientEntropy] that is truthy but
  decodes to no bytes at all (white space) replaces the random
  bytes by zeros: the loop of line 669 runs no turn over the zeroed
  [mixed_seed], which then becomes the seed material. The response
  is the same for every state and every output of [os.urandom]. *)
Theorem blank_client_entropy_fixes_the_fast_path_seed
      req data seed_size s t w :
is_critical_path (dict_get_default data "purpose" (JStr "general")) = true ->
refresh_in_progress w = true ->
dict_get_default data "clientEntropy" JNull = JStr s ->
s <> EmptyString ->
fromhex s = Some [] ->
0 <= seed_size ->
exists w',
  get_seed_body env req data seed_size t w
  = Ret {| seed :=
             hex (slice_to (sha256 (Bytes.zeros (Z.to_nat seed_size))) seed_size);
           signature :=
             hex (sha256 (slice_to (sha256 (Bytes.zeros (Z.to_nat seed_size)))
                            seed_size));
           prefetchDuringRefresh := true; fallback := false;
           error := None |} w' /\
  entropy_pool w' = entropy_pool w.
Proof.
intros Hcritical Hflag Hclient Hs Hblank Hsize.
unfold get_seed_body. rewrite Hclient, Hcritical. run. rewrite Hflag.
cbn [andb]. run. rewrite os_urandom_nonneg by exact Hsize. run.
assert (truthy (JStr s) = true) as Htruthy.
{ destruct s; [contradiction | reflexivity]. }
rewrite Htruthy. cbn [bytes_fromhex]. rewrite Hblank. run.
eexists. split.
{ unfold fast_mix, range. change (len []) with 0.
  rewrite Z.min_l by exact Hsize. cbn [Z.to_nat seq map fold_left].
  reflexivity. }
reflexivity.
Qed.

(** X11. While another thread holds [entropy_lock], a request on
  the standard path, a statistics request and a turn of the
  scheduler all wait at their first [with entropy_lock]. The request
  has by then drawn its request id and written its log line (lines
  647-649) and nothing else; the other two have changed nothing. The
  pool, its timestamp, the lock and the flag are as they were. *)
Theorem held_lock_stalls_the_standard_path holder req d n t w :
  entropy_lock w = Some holder ->
  get_json req = Some (JObj d) ->
  int (dict_get_default d "size" (JInt 32)) = inr n ->
  is_critical_path (dict_get_default d "purpose" (JStr "general"))
    && refresh_in_progress w = false ->
  get_seed env req t w
  = Block (add_log SeedRequest (set_tick (tick w + 16) w)) /\
  same_shared w (add_log SeedRequest (set_tick (tick w + 16) w)) /\
  entropy_stats t w = Block w /\
  background_entropy_refresh_step env t w = Block w.
Proof.
  intros Hheld Hjson Hsize Hstandard. split; [| split; [| split]].
  - rewrite (@Endpoint.get_seed_on_object env req d t w Hjson), Hsize.
    unfold try_except, get_seed_body. run. rewrite Hstandard.
    unfold generate_entropy_seed. run. rewrite Hheld. reflexivity.
  - repeat split.
  - unfold entropy_stats. run. rewrite Hheld. reflexivity.
  - unfold background_entropy_refresh_step. run. rewrite Hheld. reflexivity.
Qed.

End WithEnv.

(** X12. A client that sends at least [size] bytes: both paths XOR
    the first [size] client bytes onto the base bytes, one by one,
    and ignore the rest. *)
Theorem long_client_entropy_is_mixed_alike size s client_bytes seed_bytes :
  fromhex s = Some client_bytes ->
  0 <= size <= len client_bytes ->
  len seed_bytes = size ->
  mix_extra_entropy size s seed_bytes
  = inr (xor_zip seed_bytes (firstn (Z.to_nat size) client_bytes)) /\
  fast_mix size seed_bytes client_bytes
  = xor_zip seed_bytes (firstn (Z.to_nat size) client_bytes).
Proof.
  intros Hhex Hsize Hseed. split.
  - unfold mix_extra_entropy. rewrite Hhex.
    destruct (Z.ltb_spec (len client_bytes) size); [lia |].
    rewrite slice_to_firstn by lia. reflexivity.
  - unfold fast_mix, range. rewrite Z.min_r by lia.
    rewrite Mixing.fold_left_map.
    rewrite (@Mixing.fast_mix_turns (Z.to_nat size) seed_bytes client_bytes
               (Z.to_nat size)) by (unfold len in *; lia).
    rewrite Nat.sub_diag, app_nil_r, firstn_all2 by (unfold len in *; lia).
    reflexivity.
Qed.

(** X13. The standard path folds a client entropy of any length
    L > 0 over the bytes taken from the pool with wrap-around: byte i of
    the mixed value is [seed_bytes[i] ^ client[i mod L]] for every
    i < size. *)
Theorem standard_path_mixes_with_wraparound
        size s client_bytes seed_bytes :
  fromhex s = Some client_bytes ->
  0 < len client_bytes ->
  0 <= size ->
  len seed_bytes = size ->
  exists mixed,
    mix_extra_entropy size s seed_bytes = inr mixed /\
    length mixed = Z.to_nat size /\
    forall i,
      (i < Z.to_nat size)%nat ->
      nth i mixed x00
      = Bytes.xor (nth i seed_bytes x00)
          (nth (i mod length client_bytes) client_bytes x00).
Proof.
  intros Hhex Hclient Hsize Hseed.
  destruct (Z.lt_ge_cases (len client_bytes) size) as [Hshort | Hlong].
  - apply Mixing.standard_path_mixing_wraps; [exact Hhex | lia | exact Hseed].
  - exists (xor_zip seed_bytes (firstn (Z.to_nat size) client_bytes)).
    unfold mix_extra_entropy. rewrite Hhex.
    destruct (Z.ltb_spec (len client_bytes) size); [lia |].
    rewrite slice_to_firstn by lia. split; [reflexivity |].
    unfold len in *. split.
    + rewrite Mixing.xor_zip_length, length_firstn. lia.
    + intros i Hi.
      rewrite Mixing.xor_zip_nth by (rewrite ?length_firstn; lia).
      rewrite nth_firstn.
      destruct (Nat.ltb_spec i (Z.to_nat size)); [| lia].
      rewrite Nat.mod_small by lia. reflexivity.
Qed.

Lemma extraction_from_a_healthy_pool_witness :
  exists data w',
    generate_entropy_seed Demo.env 32 JNull RequestHandler
      (Demo.world (Demo.counting 200) 900 false)
    = Ret (hex (slice_to (sha256 data) 32)) w' /\
    entropy_lock w' = None /\
    entropy_pool w' = skipn 32 (Demo.counting 200).
Proof.
  destruct (@extraction_from_a_healthy_pool Demo.env 32 JNull RequestHandler
              (Demo.world (Demo.counting 200) 900 false))
    as (data & w' & Hrun & Hlock & Hpool & _);
    [reflexivity | reflexivity | lia |].
  exists data, w'. auto.
Defined.

Lemma consecutive_seeds_use_consecutive_bytes_witness :
  exists r1 r2 w1 w2,
    generate_entropy_seed Demo.env 32 JNull RequestHandler
      (Demo.world (Demo.counting 200) 900 false)
    = Ret (hex (slice_to
                  (sha256 (firstn 32 (Demo.counting 200) ++ r1)) 32)) w1 /\
    generate_entropy_seed Demo.env 16 JNull RequestHandler w1
    = Ret (hex (slice_to
                  (sha256 (firstn 16 (skipn 32 (Demo.counting 200)) ++ r2)) 16)) w2 /\
    entropy_pool w2 = skipn 48 (Demo.counting 200).
Proof.
  destruct (@consecutive_seeds_use_consecutive_bytes Demo.env 32 16
              RequestHandler (Demo.world (Demo.counting 200) 900 false))
    as (r1 & r2 & w1 & w2 & Hrun1 & Hrun2 & Hpool & _);
    [reflexivity | discriminate | lia | lia
    | vm_compute; discriminate | vm_compute; discriminate |].
  exists r1, r2, w1, w2. auto.
Defined.

Lemma malformed_client_entropy_is_ignored_witness :
  match get_seed_body Demo.env (Demo.post [])
          [("clientEntropy"%string, JStr "xyz")] 32 RequestHandler
          (Demo.world (Demo.counting 200) 900 false),
        get_seed_body Demo.env (Demo.post []) [] 32 RequestHandler
          (Demo.world (Demo.counting 200) 900 false) with
  | Ret r w1, Ret r' w2 =>
      r = r' /\ entropy_pool w1 = entropy_pool w2 /\
      entropy_lock w1 = entropy_lock w2
  | Raise e w1, Raise e' w2 =>
      e = e' /\ entropy_pool w1 = entropy_pool w2 /\
      entropy_lock w1 = entropy_lock w2
  | Block w1, Block w2 =>
      entropy_pool w1 = entropy_pool w2 /\ entropy_lock w1 = entropy_lock w2
  | _, _ => False
  end.
Proof.
  apply (@malformed_client_entropy_is_ignored Demo.env (Demo.post [])
           [("clientEntropy"%string, JStr "xyz")] [] 32 "xyz"
           RequestHandler (Demo.world (Demo.counting 200) 900 false));
    reflexivity.
Defined.

Lemma blank_client_entropy_fixes_the_fast_path_seed_witness :
  exists w',
    get_seed_body Demo.env (Demo.post [])
      [("purpose"%string, JStr "login"); ("clientEntropy"%string, JStr " ")]
      4 RequestHandler (Demo.world (Demo.counting 200) 900 true)
    = Ret {| seed := hex (slice_to (sha256 [x00; x00; x00; x00]) 4);
             signature := hex (sha256 (slice_to (sha256 [x00; x00; x00; x00]) 4));
             prefetchDuringRefresh := true; fallback := false;
             error := None |} w'.
Proof.
  destruct (@blank_client_entropy_fixes_the_fast_path_seed Demo.env
              (Demo.post [])
              [("purpose"%string, JStr "login"); ("clientEntropy"%string, JStr " ")]
              4 " " RequestHandler (Demo.world (Demo.counting 200) 900 true))
    as (w' & Hrun & _);
    [reflexivity | reflexivity | reflexivity | discriminate | reflexivity | lia |].
  exists w'. exact Hrun.
Defined.

Lemma held_lock_stalls_the_standard_path_witness :
  let w := mkWorld (Demo.counting 200) 900 (Some BackgroundRefresh)
                   true 0 0 1000 0 [] in
  get_seed Demo.env (Demo.post []) RequestHandler w
  = Block (add_log SeedRequest (set_tick (tick w + 16) w)) /\
  same_shared w (add_log SeedRequest (set_tick (tick w + 16) w)) /\
  entropy_stats RequestHandler w = Block w /\
  background_entropy_refresh_step Demo.env BackgroundRefresh w = Block w.
Proof.
  intros w.
  apply (@held_lock_stalls_the_standard_path Demo.env BackgroundRefresh
           (Demo.post []) [] 32 RequestHandler w); reflexivity.
Defined.

Lemma long_client_entropy_is_mixed_alike_witness :
  mix_extra_entropy 2 "0f0f0f" [x01; x02] = inr (xor_zip [x01; x02] [x0f; x0f]) /\
  fast_mix 2 [x01; x02] [x0f; x0f; x0f] = xor_zip [x01; x02] [x0f; x0f].
Proof.
  apply (@long_client_entropy_is_mixed_alike 2 "0f0f0f" [x0f; x0f; x0f] [x01; x02]);
    [reflexivity | vm_compute; split; discriminate | reflexivity].
Defined.

Lemma standard_path_mixes_with_wraparound_witness :
  exists mixed,
    mix_extra_entropy 3 "0f" [x01; x02; x03] = inr mixed /\
    length mixed = 3%nat.
Proof.
  destruct (@standard_path_mixes_with_wraparound 3 "0f" [x0f] [x01; x02; x03])
    as (mixed & Hmix & Hlen & _);
    [reflexivity | reflexivity | lia | reflexivity |].
  exists mixed. auto.
Defined.

End Serving.

(** ** The decorators of the routes *)

Module Routes.

Import Py Float64 Server Facts Locking Site Flow.
Local Open Scope py_scope.

(** [bytes.fromhex] reads back what [bytes.hex] wrote. *)
Lemma fromhex_hex_byte x rest :
  fromhex (String (hex_digit (Bytes.to_Z x / 16))
             (String (hex_digit (Bytes.to_Z x mod 16)) rest))
  = option_map (cons x) (fromhex rest).
Proof. destruct x; reflexivity. Qed.

Lemma fromhex_hex b : fromhex (hex b) = Some b.
Proof.
  induction b as [| x r IH]; [reflexivity |].
  cbn [hex]. rewrite fromhex_hex_byte, IH. reflexivity.
Qed.

(** A plain view never aborts. *)
Lemma serve_not_too_many {A} (g : M A) rc t w :
  too_many (snd (serve g rc t w)) = false.
Proof.
  unfold serve, bind. cbn [snd].
  destruct (g t w) as [a w1 | e w1 | w1]; reflexivity.
Qed.

Lemma serve_counters {A} (g : M A) rc t w : fst (serve g rc t w) = rc.
Proof. reflexivity. Qed.

(** Inside a window that has started: the requests are admitted until
    the count reaches RATE_LIMIT and refused from then on; the window
    keeps its start, and the other addresses their counters. What
    follows the requests ([tail]) starts from the counters and the
    state they leave. *)
Lemma burst_in_window {A} (g : M A) ip t0 times :
  Forall (fun now => (now - t0 <= RATE_WINDOW)%Q) times ->
  forall count rc t w,
    rc ip = Some (count, t0) ->
    exists rc1 w1 os1,
      (forall tail,
          burst (rate_limit ip (serve g)) (times ++ tail) rc t w
          = (fst (burst (rate_limit ip (serve g)) tail rc1 t w1),
             os1 ++ snd (burst (rate_limit ip (serve g)) tail rc1 t w1))) /\
      map too_many os1
      = map (fun i => RATE_LIMIT <=? count + Z.of_nat i) (seq 0 (length times)) /\
      (exists count1, rc1 ip = Some (count1, t0)) /\
      (forall ip', ip' <> ip -> rc1 ip' = rc ip').
Proof.
  induction 1 as [| now rest Hnow Hrest IH]; intros count rc t w Hrc.
  - exists rc, w, []. repeat split; [| eauto].
    intros tail. cbn [app]. destruct (burst _ tail rc t w). reflexivity.
  - assert (Qlt_bool RATE_WINDOW (fsub now t0) = false) as Hwindow.
    { apply (@Rounding.not_later now t0 3600); [lia | exact Hnow]. }
    destruct (Z.geb_spec count RATE_LIMIT) as [Hfull | Hroom].
    + destruct (IH count rc t
                  (final_world (Ret (Abort (A := A) 429) (set_clock now w))) Hrc)
        as (rc1 & w1 & os1 & Hrun & Hpattern & Hcount & Hothers).
      exists rc1, w1, (Ret (Abort 429) (set_clock now w) :: os1).
      repeat split; [| | exact Hcount | exact Hothers].
      * intros tail. cbn [app burst].
        unfold rate_limit at 1. cbn [clock set_clock]. rewrite Hrc, Hwindow.
        destruct (Z.geb_spec count RATE_LIMIT); [| lia].
        rewrite Hrun. reflexivity.
      * cbn [map length seq too_many]. rewrite Hpattern. f_equal.
        -- symmetry. apply Z.leb_le. lia.
        -- rewrite <- seq_shift, map_map. apply map_ext_in.
           intros i _. transitivity true; [| symmetry]; apply Z.leb_le; lia.
    + pose proof (serve_not_too_many g (counters_set ip (count + 1, t0) rc) t
                    (set_clock now w)) as Hserved.
      set (o := snd (serve g (counters_set ip (count + 1, t0) rc) t
                       (set_clock now w))) in *.
      assert (counters_set ip (count + 1, t0) rc ip = Some (count + 1, t0)) as Hrc'.
      { unfold counters_set. rewrite String.eqb_refl. reflexivity. }
      destruct (IH (count + 1) _ t (final_world o) Hrc')
        as (rc1 & w1 & os1 & Hrun & Hpattern & Hcount & Hothers).
      exists rc1, w1, (o :: os1).
      repeat split; [| | exact Hcount |].
      * intros tail. cbn [app burst].
        unfold rate_limit at 1. cbn [clock set_clock]. rewrite Hrc, Hwindow.
        destruct (Z.geb_spec count RATE_LIMIT); [lia |].
        change (serve g (counters_set ip (count + 1, t0) rc) t (set_clock now w))
          with (counters_set ip (count + 1, t0) rc, o).
        lazy beta iota zeta. rewrite Hrun. reflexivity.
      * cbn [map length seq]. rewrite Hserved, Hpattern. f_equal.
        -- symmetry. apply Z.leb_gt. lia.
        -- rewrite <- seq_shift, map_map. apply map_ext.
           intros i. f_equal. lia.
      * intros ip' Hip'. rewrite (Hothers ip' Hip').
        unfold counters_set. destruct (String.eqb_spec ip' ip); [contradiction |].
        reflexivity.
Qed.

(** The first request of a window is admitted and opens the window at
    its own time. *)
Lemma burst_opens_window {A} (g : M A) ip now times rc t w :
  (rc ip = None
   \/ exists count t0, rc ip = Some (count, t0) /\ (RATE_WINDOW < fsub now t0)%Q) ->
  burst (rate_limit ip (serve g)) (now :: times) rc t w
  = (fst (burst (rate_limit ip (serve g)) times
            (counters_set ip (1, now) rc) t
            (final_world (snd (serve g (counters_set ip (1, now) rc) t
                                 (set_clock now w))))),
     snd (serve g (counters_set ip (1, now) rc) t (set_clock now w))
     :: snd (burst (rate_limit ip (serve g)) times
               (counters_set ip (1, now) rc) t
               (final_world (snd (serve g (counters_set ip (1, now) rc) t
                                    (set_clock now w)))))).
Proof.
  intros Hopen. cbn [burst]. unfold rate_limit at 1. cbn [clock set_clock].
  destruct Hopen as [Hnone | (count & t0 & Hsome & Hexpired)].
  - rewrite Hnone.
    change (serve g (counters_set ip (1, now) rc) t (set_clock now w))
      with (counters_set ip (1, now) rc,
            snd (serve g (counters_set ip (1, now) rc) t (set_clock now w))).
    lazy beta iota zeta. cbn [snd]. destruct (burst _ times _ t _). reflexivity.
  - apply Qlt_bool_iff in Hexpired. rewrite Hsome, Hexpired.
    change (serve g (counters_set ip (1, now) rc) t (set_clock now w))
      with (counters_set ip (1, now) rc,
            snd (serve g (counters_set ip (1, now) rc) t (set_clock now w))).
    lazy beta iota zeta. cbn [snd]. destruct (burst _ times _ t _). reflexivity.
Qed.

Lemma first_hundred n :
  map (fun i => RATE_LIMIT <=? 1 + Z.of_nat i) (seq 0 n)
  = map (fun i => (100 <=? i)%nat) (seq 1 n).
Proof.
  rewrite <- seq_shift, map_map. apply map_ext. intros i. unfold RATE_LIMIT.
  destruct (Z.leb_spec 100 (1 + Z.of_nat i)), (Nat.leb_spec 100 (S i));
    try reflexivity; lia.
Qed.

(** X14. The rate limit, seen by one address that has no counter
    yet. Of the requests it sends within RATE_WINDOW seconds of its
    first one, the first 100 reach the view and every later one is
    refused with status 429, whatever the view does. The counters of
    the other addresses are not touched. *)
Theorem rate_limit_admits_a_hundred_per_window {A} (g : M A)
        ip t0 times rc t w :
  rc ip = None ->
  Forall (fun now => (now - t0 <= RATE_WINDOW)%Q) times ->
  map too_many (snd (burst (rate_limit ip (serve g)) (t0 :: times) rc t w))
  = map (fun i => (100 <=? i)%nat) (seq 0 (S (length times)))
  /\
  forall ip', ip' <> ip ->
    fst (burst (rate_limit ip (serve g)) (t0 :: times) rc t w) ip' = rc ip'.
Proof.
  intros Hnew Hwindow.
  rewrite burst_opens_window by (left; exact Hnew). cbn [fst snd].
  set (rc0 := counters_set ip (1, t0) rc).
  set (w0 := final_world _).
  assert (rc0 ip = Some (1, t0)) as Hrc0.
  { subst rc0. unfold counters_set. rewrite String.eqb_refl. reflexivity. }
  destruct (@burst_in_window A g ip t0 times Hwindow 1 rc0 t w0 Hrc0)
    as (rc1 & w1 & os1 & Hrun & Hpattern & _ & Hothers).
  specialize (Hrun []). rewrite app_nil_r in Hrun. rewrite Hrun.
  cbn [burst fst snd]. rewrite app_nil_r. split.
  - cbn [map seq]. rewrite serve_not_too_many, Hpattern, first_hundred.
    reflexivity.
  - intros ip' Hip'. rewrite (Hothers ip' Hip'). subst rc0.
    unfold counters_set. destruct (String.eqb_spec ip' ip); [contradiction |].
    reflexivity.
Qed.

(** X15. The window is a fixed one: it starts at the first request
    and is not moved by the requests that follow, admitted or refused.
    The first request for which the floating-point difference
    [now - start] is more than RATE_WINDOW is admitted and starts a
    new count: of the requests of the second window again the first
    100 pass. *)
Theorem rate_limit_window_restarts {A} (g : M A)
        ip t0 times1 t1 times2 rc t w :
  rc ip = None ->
  Forall (fun now => (now - t0 <= RATE_WINDOW)%Q) times1 ->
  (RATE_WINDOW < fsub t1 t0)%Q ->
  Forall (fun now => (now - t1 <= RATE_WINDOW)%Q) times2 ->
  map too_many
      (snd (burst (rate_limit ip (serve g))
              (t0 :: times1 ++ t1 :: times2) rc t w))
  = map (fun i => (100 <=? i)%nat) (seq 0 (S (length times1)))
    ++ map (fun i => (100 <=? i)%nat) (seq 0 (S (length times2))).
Proof.
  intros Hnew Hwindow1 Hexpired Hwindow2.
  rewrite burst_opens_window by (left; exact Hnew). cbn [fst snd].
  set (rc0 := counters_set ip (1, t0) rc).
  set (w0 := final_world _).
  assert (rc0 ip = Some (1, t0)) as Hrc0.
  { subst rc0. unfold counters_set. rewrite String.eqb_refl. reflexivity. }
  destruct (@burst_in_window A g ip t0 times1 Hwindow1 1 rc0 t w0 Hrc0)
    as (rc1 & w1 & os1 & Hrun1 & Hpattern1 & (count1 & Hcount1) & _).
  rewrite (Hrun1 (t1 :: times2)). cbn [snd].
  rewrite burst_opens_window by (right; eauto). cbn [fst snd].
  set (rc2 := counters_set ip (1, t1) rc1).
  set (w2 := final_world _).
  assert (rc2 ip = Some (1, t1)) as Hrc2.
  { subst rc2. unfold counters_set. rewrite String.eqb_refl. reflexivity. }
  destruct (@burst_in_window A g ip t1 times2 Hwindow2 1 rc2 t w2 Hrc2)
    as (rc3 & w3 & os3 & Hrun3 & Hpattern3 & _).
  specialize (Hrun3 []). rewrite app_nil_r in Hrun3. rewrite Hrun3.
  cbn [burst fst snd]. rewrite app_nil_r.
  cbn [map seq]. rewrite serve_not_too_many.
  rewrite map_app. cbn [map]. rewrite serve_not_too_many.
  rewrite Hpattern1, Hpattern3, !first_hundred. reflexivity.
Qed.

Section WithEnv.
Variable env : Env.

(** X16. A request without the API key is stopped before anything
  else happens: status 401, the module state as it was, and no
  entry made or counted in [request_counters] (the key is checked
  before the rate limit). *)
Theorem unauthorized_requests_are_stopped_first req ip rc t w :
X_API_Key req <> "development-only-key"%string ->
get_seed_route env req ip rc t w = (rc, Ret (Abort 401) w) /\
entropy_stats_route req rc t w = (rc, Ret (Abort 401) w).
Proof.
intros Hkey.
assert (existsb (String.eqb (X_API_Key req)) API_KEYS_values = false) as Hnot.
{ cbn [existsb API_KEYS_values]. rewrite orb_false_r.
  apply String.eqb_neq. exact Hkey. }
unfold get_seed_route, entropy_stats_route, require_api_key.
rewrite Hnot, andb_false_r. split; reflexivity.
Qed.

(** A response of [get_seed] comes from its body, not from its
  handler. *)
Lemma get_seed_ret_inv req t w r w' :
get_seed env req t w = Ret r w' ->
exists d seed_size, get_seed_body env req d seed_size t w = Ret r w'.
Proof.
assert (forall e0, get_seed_except env None e0 t w <> Ret r w') as Hunbound.
{ intros e0. unfold get_seed_except. run. discriminate. }
unfold get_seed.
destruct (match get_json req with
          | Some j => if truthy j then j else JObj []
          | None => JObj []
          end) as [| b | z | s | l | d];
  try (intros H; exfalso; exact (Hunbound _ H)).
destruct (int _) as [e0 | n]; [intros H; exfalso; exact (Hunbound _ H) |].
unfold try_except.
destruct (get_seed_body env req d (Z.min n 128) t w)
  as [r1 w1 | e1 w1 | w1] eqn:Ebody.
- intros H. injection H as <- <-. eauto.
- apply Requests.get_seed_body_raise in Ebody.
  unfold get_seed_except. run. rewrite os_urandom_negative by exact Ebody.
  discriminate.
- discriminate.
Qed.

(** X17. What the signature of a response signs. On the standard
  path it is the SHA-256 of the hex seed followed by the caller's
  API key (the key has passed [require_api_key], so the branch
  without the key is never taken). On the fast path it is the
  SHA-256 of the raw seed bytes, and the key takes no part. *)
Theorem response_signatures req ip rc t w rc' r w' :
get_seed_route env req ip rc t w = (rc', Ret (Body r) w') ->
if prefetchDuringRefresh r
then exists final_seed,
    fromhex (seed r) = Some final_seed /\
    signature r = hex (sha256 final_seed)
else signature r = hex (sha256 (encode (seed r ++ X_API_Key req))).
Proof.
unfold get_seed_route, require_api_key.
destruct (negb (String.eqb (X_API_Key req) EmptyString)
          && existsb (String.eqb (X_API_Key req)) API_KEYS_values) eqn:Hkey;
  [| discriminate].
apply andb_true_iff in Hkey. destruct Hkey as [_ Hkey].
assert (forall rc0,
           serve (get_seed env req) rc0 t w = (rc', Ret (Body r) w') ->
           if prefetchDuringRefresh r
           then exists final_seed,
               fromhex (seed r) = Some final_seed /\
               signature r = hex (sha256 final_seed)
           else signature r
                = hex (sha256 (encode (seed r ++ X_API_Key req)))) as Hserved.
{ intros rc0. unfold serve, bind.
  destruct (get_seed env req t w) as [r1 w1 | e1 w1 | w1] eqn:Hrun;
    try discriminate.
  intros H. injection H as _ <- <-.
  destruct (@get_seed_ret_inv req t w r1 w1 Hrun) as (d & seed_size & Hbody).
  destruct (@Requests.get_seed_body_ret env req d seed_size t w r1 w1 Hbody)
    as (_ & _ & Hsig).
  destruct (prefetchDuringRefresh r1).
  - destruct Hsig as (final_seed & Hseed & Hsig).
    exists final_seed. rewrite Hseed. split; [apply fromhex_hex | exact Hsig].
  - rewrite Hkey in Hsig. exact Hsig. }
unfold rate_limit.
destruct (rc ip) as [[count start_time] |]; [| apply Hserved].
destruct (Qlt_bool _ _); [apply Hserved |].
destruct (count >=? RATE_LIMIT); [discriminate | apply Hserved].
Qed.

End WithEnv.

Lemma rate_limit_admits_a_hundred_per_window_witness :
  map too_many
      (snd (burst (rate_limit "10.0.0.7" (serve entropy_stats))
              [10%Q; 20%Q; 3610%Q] no_counters RequestHandler
              (Demo.world (Demo.counting 200) 900 false)))
  = [false; false; false].
Proof.
  apply (proj1 (@rate_limit_admits_a_hundred_per_window stats entropy_stats
                  "10.0.0.7" 10%Q [20%Q; 3610%Q] no_counters RequestHandler
                  (Demo.world (Demo.counting 200) 900 false)
                  eq_refl
                  ltac:(repeat constructor; discriminate))).
Defined.

Lemma rate_limit_window_restarts_witness :
  map too_many
      (snd (burst (rate_limit "10.0.0.7" (serve entropy_stats))
              (10%Q :: repeat 20%Q 100 ++ 3611%Q :: repeat 3620%Q 100)
              no_counters RequestHandler
              (Demo.world (Demo.counting 200) 900 false)))
  = map (fun i => (100 <=? i)%nat) (seq 0 (S (length (repeat 20%Q 100))))
    ++ map (fun i => (100 <=? i)%nat) (seq 0 (S (length (repeat 3620%Q 100)))).
Proof.
  apply (@rate_limit_window_restarts stats entropy_stats
           "10.0.0.7" 10%Q (repeat 20%Q 100) 3611%Q (repeat 3620%Q 100)
           no_counters RequestHandler
           (Demo.world (Demo.counting 200) 900 false)).
  - reflexivity.
  - apply Forall_forall. intros now Hin. apply repeat_spec in Hin.
    subst now. discriminate.
  - reflexivity.
  - apply Forall_forall. intros now Hin. apply repeat_spec in Hin.
    subst now. discriminate.
Defined.

Lemma unauthorized_requests_are_stopped_first_witness :
  let req := {| get_json := None; X_API_Key := "guess" |} in
  let w := Demo.world (Demo.counting 200) 900 false in
  get_seed_route Demo.env req "10.0.0.7" no_counters RequestHandler w
  = (no_counters, Ret (Abort 401) w) /\
  entropy_stats_route req no_counters RequestHandler w
  = (no_counters, Ret (Abort 401) w).
Proof.
  intros req w.
  apply (@unauthorized_requests_are_stopped_first Demo.env req "10.0.0.7"
           no_counters RequestHandler w).
  discriminate.
Defined.

Lemma response_signatures_witness :
  exists rc' r w',
    get_seed_route Demo.env
      (Demo.post [("size"%string, JInt 16); ("purpose"%string, JStr "login")])
      "10.0.0.7" no_counters RequestHandler
      (Demo.world (Demo.counting 200) 900 true)
    = (rc', Ret (Body r) w') /\
    prefetchDuringRefresh r = true /\
    exists final_seed,
      fromhex (seed r) = Some final_seed /\
      signature r = hex (sha256 final_seed).
Proof.
  eexists; eexists; eexists. split; [vm_compute; reflexivity |].
  split; [reflexivity |].
  match goal with
  | |- exists final_seed, fromhex (seed ?r) = _ /\ _ =>
      exact (@response_signatures Demo.env
               (Demo.post [("size"%string, JInt 16);
                           ("purpose"%string, JStr "login")])
               "10.0.0.7" no_counters RequestHandler
               (Demo.world (Demo.counting 200) 900 true) _ r _
               ltac:(vm_compute; reflexivity))
  end.
Defined.

End Routes.

(** ** The scheduler's idle turns, start-up, and the small functions *)

Module Housekeeping.

Import Py Server Facts Locking Site Flow Refresh.
Local Open Scope py_scope.

(** X18. The adaptive pause of the scheduler lies between 15 and 600
    seconds: at most 90 s as long as there are no more than 5
    consecutive failures, and at least 360 s beyond that. *)
Theorem sleep_time_bounds w :
  (15 <= sleep_time w)%Q /\ (sleep_time w <= 600)%Q /\
  (consecutive_failures w <= 5 -> (sleep_time w <= 90)%Q) /\
  (5 < consecutive_failures w -> (360 <= sleep_time w)%Q).
Proof.
  unfold sleep_time.
  destruct (Z.gtb_spec (consecutive_failures w) 5) as [Hmany | Hfew].
  - split; [| split; [| split; intros Hf]];
      unfold Qle; cbn [Qnum Qden inject_Z]; lia.
  - assert (forall q : Q,
               q = 90%Q \/ q = 45%Q \/ q = 30%Q \/ q = 15%Q ->
               (15 <= q)%Q /\ (q <= 600)%Q /\
               (consecutive_failures w <= 5 -> (q <= 90)%Q) /\
               (5 < consecutive_failures w -> (360 <= q)%Q)) as Hvalues.
    { intros q Hq. split; [| split; [| split; intros Hf]]; try lia;
        destruct Hq as [-> | [-> | [-> | ->]]]; discriminate. }
    destruct (Qlt_bool (9 # 10) _); [apply Hvalues; tauto |].
    destruct (Qlt_bool (7 # 10) _); [apply Hvalues; tauto |].
    destruct (Qlt_bool (5 # 10) _); apply Hvalues; tauto.
Qed.

Section WithEnv.
Variable env : Env.

(** X19. A turn of the scheduler that starts with the lock free, has
  no more than 3 consecutive failures behind it and finds no refresh
  to start (the pool is at least half full and not stale by the
  floating-point test of line 497, or a refresh is in progress)
  returns with the lock free and the pool, its timestamp, the flag and
  the counters as they were, after sleeping [sleep_time]. It writes
  the log line of line 615 when the pool is less than 0.3 full, and
  no other. *)
Theorem scheduler_turn_without_refresh t w :
entropy_lock w = None ->
consecutive_failures w <= 3 ->
((len (entropy_pool w) <? ENTROPY_POOL_SIZE / 2)
   || Qlt_bool REFRESH_INTERVAL (Float64.fsub (clock w) (last_refresh_time w)))
  && negb (refresh_in_progress w) = false ->
exists w',
  background_entropy_refresh_step env t w = Ret tt w' /\
  same_shared w w' /\
  clock w' = (clock w + sleep_time w)%Q /\
  log w' = log w ++ (if sleep_is_unusual w then [PoolRatioInfo] else []).
Proof.
intros Hfree Hfew Hidle.
assert ((consecutive_failures w >? 3) = false) as Hskip.
{ destruct (Z.gtb_spec (consecutive_failures w) 3); [lia | reflexivity]. }
assert ((consecutive_failures w >? 5) = false) as Hmany.
{ destruct (Z.gtb_spec (consecutive_failures w) 5); [lia | reflexivity]. }
unfold background_entropy_refresh_step. run.
rewrite Hfree. run. rewrite Hskip, Hidle. cbn [andb]. run.
rewrite Hmany. run.
change (sleep_is_unusual (set_lock None (set_lock (Some t) w)))
  with (sleep_is_unusual w).
destruct (sleep_is_unusual w); run;
  (eexists; split; [reflexivity |]; fields;
   rewrite ?app_nil_r; repeat split; symmetry; exact Hfree).
Qed.

(** X20. Start-up (lines 754-764) from the state the module is
  loaded with: the pool receives exactly 100 KB, is stamped with the
  current time, the lock is free again and the flag is raised. So a
  critical request arriving now takes the fast path, and any other
  request of up to 128 bytes is served from those bytes without a
  refresh by the caller. *)
Theorem bootstrap_fills_the_first_pool t now size extra_entropy :
0 <= size <= 128 ->
exists w1,
  bootstrap env t (initial_world now) = Ret tt w1 /\
  len (entropy_pool w1) = 1024 * 100 /\
  last_refresh_time w1 = now /\
  entropy_lock w1 = None /\
  refresh_in_progress w1 = true /\
  exists seed w2,
    generate_entropy_seed env size extra_entropy t w1 = Ret seed w2 /\
    len (entropy_pool w2) = 1024 * 100 - size /\
    entropy_lock w2 = None.
Proof.
intros Hsize.
eexists. split.
{ unfold bootstrap. run. cbn [initial_world entropy_lock]. run.
  rewrite os_urandom_nonneg by lia. run. reflexivity. }
set (w1 := set_in_progress true _).
assert (len (entropy_pool w1) = 1024 * 100) as Hlen.
{ subst w1. fields. cbn [initial_world entropy_pool app].
  unfold len. rewrite urandom_bytes_length. apply Z2Nat.id. lia. }
assert (refresh_needed size w1 = false) as Hfresh.
{ unfold refresh_needed. rewrite Hlen.
  destruct (Z.ltb_spec (1024 * 100) (size * 2)); [lia |].
  cbn [orb]. subst w1. fields. cbn [initial_world clock].
  apply (@Rounding.not_later now now 300); [lia |].
  change (inject_Z 300) with 300%Q. lra. }
split; [exact Hlen |].
split; [reflexivity |]. split; [reflexivity |]. split; [reflexivity |].
assert (returns (generate_entropy_seed env size extra_entropy) t w1
          (fun _ w2 =>
             len (entropy_pool w2) = 1024 * 100 - size /\
             entropy_lock w2 = None)) as (seed & w2 & Hrun & H).
{ unfold generate_entropy_seed.
  apply returns_with_entropy_lock; [reflexivity |].
  apply returns_bind, returns_get.
  change (refresh_needed size (set_lock (Some t) w1))
    with (refresh_needed size w1).
  rewrite Hfresh. apply returns_bind, returns_ret.
  apply Serving.seed_from_pool_takes.
  - change (entropy_pool (set_lock (Some t) w1)) with (entropy_pool w1). lia.
  - intros data w2 Hp _ _ _ _. fields. split; [| reflexivity].
    rewrite Hp.
    change (entropy_pool (set_lock (Some t) w1)) with (entropy_pool w1).
    unfold len in *. rewrite length_skipn. lia. }
exists seed, w2. split; assumption.
Qed.

(** X21. [process_video] always returns, without touching the pool
  or the lock, and never returns fewer than 32 bytes: a missing or
  unreadable file, a decoder error and an empty harvest give 10 KB
  of [os.urandom], and a condensed harvest holds at least one
  digest. (The [or os.urandom(...)] of line 434 is never needed.) *)
Theorem process_video_never_returns_nothing c t w :
exists b w',
  process_video env c t w = Ret b w' /\
  32 <= len b /\
  same_shared w w'.
Proof.
assert (forall w0 : World, same_shared w0 w0) as Hsame.
{ intros w0. repeat split. }
unfold process_video.
assert (exists b w',
           os_urandom env (1024 * 10) t w = Ret b w' /\
           32 <= len b /\ same_shared w w') as Hfallback.
{ rewrite os_urandom_nonneg by lia. eexists; eexists.
  split; [reflexivity |]. split; [| repeat split].
  unfold len. rewrite urandom_bytes_length. lia. }
destruct c as [| | entropy_data |]; try exact Hfallback.
destruct (len entropy_data =? 0); [exact Hfallback |].
eexists; eexists. split; [reflexivity |]. split; [| apply Hsame].
unfold condense_output.
destruct (Z.gtb_spec (len entropy_data) (1024 * 10)) as [Hbig | Hsmall].
- cbv zeta.
  rewrite (Condense.fold_left_extend
             (fun i => sha256 (slice entropy_data (i * (1024 * 10))
                                 (Z.min (i * (1024 * 10) + 1024 * 10)
                                    (len entropy_data))))).
  cbn [app].
  assert (forall (g : Z -> bytes) l,
             len (flat_map (fun i => sha256 (g i)) l) = 32 * len l) as Hdigests.
  { intros g l. induction l as [| x l IH]; [reflexivity |].
    cbn [flat_map]. rewrite len_app, IH. unfold len, sha256.
    rewrite sha256_length. cbn [length]. lia. }
  rewrite Hdigests. unfold range, len at 1. rewrite length_map, length_seq.
  assert (1 <= len entropy_data / (1024 * 10)) as Hone.
  { apply Z.div_le_lower_bound; lia. }
  destruct (len entropy_data mod (1024 * 10) =? 0); lia.
- rewrite len_app. pose proof (len_nonneg (slice_to entropy_data 1024)).
  unfold len at 1, sha256. rewrite sha256_length. lia.
Qed.

End WithEnv.

(** X22. [entropy_stats] with the lock free reports the number of
    bytes in the pool, the capacity of 1 MB and their ratio, and no
    date of refresh when the pool's timestamp is not positive; it
    changes nothing and leaves the lock free. *)
Theorem entropy_stats_reads_the_pool t w :
  entropy_lock w = None ->
  exists s w',
    entropy_stats t w = Ret s w' /\
    poolSize s = len (entropy_pool w) /\
    poolCapacity s = 1048576 /\
    (poolUtilization s * inject_Z 1048576 == inject_Z (len (entropy_pool w)))%Q /\
    (lastRefresh s = None <-> (last_refresh_time w <= 0)%Q) /\
    same_shared w w' /\ clock w' = clock w /\ log w' = log w.
Proof.
  intros Hfree. unfold entropy_stats. run. rewrite Hfree. run.
  eexists; eexists. split; [reflexivity |].
  cbn [poolSize poolCapacity poolUtilization lastRefresh]. fields.
  split; [reflexivity |]. split; [reflexivity |]. split; [| split].
  - change (ENTROPY_POOL_SIZE >? 0) with true. cbv iota.
    change ENTROPY_POOL_SIZE with 1048576. field.
  - destruct (Qlt_bool 0 (last_refresh_time w)) eqn:E.
    + apply Qlt_bool_iff in E. split; [discriminate |].
      intros Hle. exfalso. exact (Qlt_not_le _ _ E Hle).
    + split; [intros _ | reflexivity].
      apply Qnot_lt_le. intros Hlt. apply Qlt_bool_iff in Hlt. congruence.
  - repeat split. symmetry. exact Hfree.
Qed.

(** X23. [compute_hash] gives the 64 bytes of SHA-512 for the name
    sha512 and the 32 bytes of SHA-256 for every other name, known or
    not. *)
Theorem compute_hash_defaults_to_sha256 data algorithm :
  (algorithm = "sha512"%string ->
   compute_hash data algorithm = sha512 data /\ len (compute_hash data algorithm) = 64)
  /\
  (algorithm <> "sha512"%string ->
   compute_hash data algorithm = sha256 data /\ len (compute_hash data algorithm) = 32).
Proof.
  split.
  - intros ->. split; [reflexivity |]. apply Refresh.sha512_len.
  - intros Hother. unfold compute_hash.
    assert (sha256 data = sha256 data /\ len (sha256 data) = 32) as H256.
    { split; [reflexivity |]. unfold len, sha256. rewrite sha256_length.
      reflexivity. }
    destruct (String.eqb algorithm "sha256"); [exact H256 |].
    destruct (String.eqb_spec algorithm "sha512"); [contradiction | exact H256].
Qed.

Lemma scheduler_turn_without_refresh_witness :
  let w := mkWorld (Demo.counting 200) 900 None true 0 0 1000 0 [] in
  exists w',
    background_entropy_refresh_step Demo.env BackgroundRefresh w = Ret tt w' /\
    same_shared w w' /\
    clock w' = 1015%Q /\
    log w' = [PoolRatioInfo].
Proof.
  intros w.
  apply (@scheduler_turn_without_refresh Demo.env BackgroundRefresh w);
    [reflexivity | discriminate | reflexivity].
Defined.

Lemma bootstrap_fills_the_first_pool_witness :
  exists w1,
    bootstrap Demo.env RequestHandler (initial_world 1000) = Ret tt w1 /\
    len (entropy_pool w1) = 1024 * 100 /\
    refresh_in_progress w1 = true.
Proof.
  destruct (@bootstrap_fills_the_first_pool Demo.env RequestHandler 1000 32 JNull)
    as (w1 & Hrun & Hlen & _ & _ & Hflag & _); [lia |].
  exists w1. auto.
Defined.

Lemma entropy_stats_reads_the_pool_witness :
  exists s w',
    entropy_stats RequestHandler (Demo.world (Demo.counting 200) 900 false)
    = Ret s w' /\
    poolSize s = 200.
Proof.
  destruct (@entropy_stats_reads_the_pool RequestHandler
              (Demo.world (Demo.counting 200) 900 false) eq_refl)
    as (s & w' & Hrun & Hsize & _).
  exists s, w'. split; [exact Hrun |]. rewrite Hsize. reflexivity.
Defined.

Lemma compute_hash_defaults_to_sha256_witness :
  compute_hash [x61] "md5" = sha256 [x61] /\ len (compute_hash [x61] "md5") = 32.
Proof.
  apply (proj2 (@compute_hash_defaults_to_sha256 [x61] "md5")). discriminate.
Defined.

End Housekeeping.

(** ** The claims on taking from the pool and on the fast path, through
    the functions that are called *)

Module Guard.

Import Py Float64 Server Facts Locking Site Flow Refresh.
Local Open Scope py_scope.

Section WithEnv.
Variable env : Env.

(** C5 (the code breaks it). The claim: taking n bytes from a pool of
  m bytes removes the first n when m >= n, and signals that the pool
  is insufficient (the fallback path) when m < n, leaving the pool
  as it is. The code: the take block of lines 336-362 sits behind
  the test of line 332, and [generate_entropy_seed] is the only way
  to it. Whenever m < 2n that test sends the caller into
  [refresh_entropy_pool] with the lock held, where it waits for
  ever: with n <= m < 2n nothing is taken, and with m < n the
  fallback is never reached. Every call that does return has found
  m >= 2n and has taken exactly the first n bytes. *)
Theorem taking_waits_below_twice_the_size size extra_entropy t w :
entropy_lock w = None ->
0 <= size ->
(len (entropy_pool w) < 2 * size ->
 exists w',
   generate_entropy_seed env size extra_entropy t w = Block w' /\
   entropy_lock w' = Some t /\
   entropy_pool w' = entropy_pool w)
/\
(forall seed w',
    generate_entropy_seed env size extra_entropy t w = Ret seed w' ->
    2 * size <= len (entropy_pool w) /\
    entropy_pool w' = skipn (Z.to_nat size) (entropy_pool w)).
Proof.
intros Hfree Hsize.
assert (refresh_needed size w = true ->
        exists w',
          generate_entropy_seed env size extra_entropy t w = Block w' /\
          entropy_lock w' = Some t /\
          entropy_pool w' = entropy_pool w) as Hwaits.
{ intros Hneeded.
  destruct (@refresh_waits_when_locked env t t (set_lock (Some t) w))
    as (w' & Hrun & (Hpool & _ & Hlock & _) & _); [reflexivity |].
  exists w'. unfold generate_entropy_seed. run. rewrite Hfree. run.
  change (refresh_needed size (set_lock (Some t) w))
    with (refresh_needed size w).
  rewrite Hneeded, Hrun. auto. }
split.
- intros Hlow. apply Hwaits. unfold refresh_needed.
  destruct (Z.ltb_spec (len (entropy_pool w)) (size * 2)); [reflexivity | lia].
- intros seed w' Hret.
  destruct (refresh_needed size w) eqn:Hneeded.
  + destruct (Hwaits eq_refl) as (w1 & Hblock & _). congruence.
  + destruct (@Serving.no_refresh_needed size w Hsize Hneeded) as [Hfits _].
    assert (size * 2 <= len (entropy_pool w)) as Henough.
    { unfold refresh_needed in Hneeded. apply orb_false_iff in Hneeded.
      destruct Hneeded as [Hlow _]. apply Z.ltb_ge in Hlow. exact Hlow. }
    split; [lia |].
    assert (returns (generate_entropy_seed env size extra_entropy) t w
              (fun _ w2 =>
                 entropy_pool w2 = skipn (Z.to_nat size) (entropy_pool w)))
      as (seed2 & w2 & Hrun & Hpool).
    { unfold generate_entropy_seed.
      apply returns_with_entropy_lock; [exact Hfree |].
      apply returns_bind, returns_get.
      change (refresh_needed size (set_lock (Some t) w))
        with (refresh_needed size w).
      rewrite Hneeded. apply returns_bind, returns_ret.
      apply Serving.seed_from_pool_takes; [fields; lia |].
      intros data w2 Hp _ _ _ _. fields. exact Hp. }
    rewrite Hrun in Hret. injection Hret as _ <-. exact Hpool.
Qed.

(** C4 (the code breaks it). The claim: a critical request during
  a refresh is answered entirely from the secure random source,
  without touching the pool, and is flagged. The code: the request
  is answered, flagged [prefetchDuringRefresh], and the pool, its
  timestamp, the lock and the flag are as they were; but when the
  client sends an entropy of L < size bytes, the seed is made of
  the first L random bytes XORed with the client's and of zeros:
  the other size - L bytes of [os.urandom(size)] are thrown away by
  the loop of lines 668-671. With L = 0 (a blank string) no random
  byte reaches the seed. *)
Theorem critical_request_drops_the_random_bytes
      req d n s client_bytes t w :
get_json req = Some (JObj d) ->
int (dict_get_default d "size" (JInt 32)) = inr n ->
is_critical_path (dict_get_default d "purpose" (JStr "general")) = true ->
refresh_in_progress w = true ->
dict_get_default d "clientEntropy" JNull = JStr s ->
s <> EmptyString ->
fromhex s = Some client_bytes ->
len client_bytes < Z.min n 128 ->
let seed_size := Z.min n 128 in
let emergency_seed :=
  urandom_bytes env (Z.to_nat seed_size) (set_tick (tick w + 16) w) in
let mixed :=
  xor_zip (firstn (length client_bytes) emergency_seed) client_bytes
  ++ Bytes.zeros (Z.to_nat seed_size - length client_bytes) in
exists w',
  get_seed env req t w
  = Ret {| seed := hex (slice_to (sha256 mixed) seed_size);
           signature := hex (sha256 (slice_to (sha256 mixed) seed_size));
           prefetchDuringRefresh := true; fallback := false;
           error := None |} w' /\
  same_shared w w' /\
  (client_bytes = [] -> mixed = Bytes.zeros (Z.to_nat seed_size)).
Proof.
intros Hjson Hsize Hcritical Hflag Hclient Hs Hhex Hshort
       seed_size emergency_seed mixed.
pose proof (len_nonneg client_bytes) as HL.
assert (truthy (JStr s) = true) as Htruthy.
{ destruct s; [contradiction | reflexivity]. }
rewrite (@Endpoint.get_seed_on_object env req d t w Hjson), Hsize.
fold seed_size.
unfold try_except, get_seed_body. rewrite Hclient, Hcritical. run.
rewrite Hflag. cbn [andb]. run.
rewrite os_urandom_nonneg by (subst seed_size; lia). run.
rewrite Htruthy. cbn [bytes_fromhex]. rewrite Hhex. run.
rewrite (@Mixing.fast_mix_value seed_size _ client_bytes)
  by (try (unfold len; rewrite urandom_bytes_length);
      subst seed_size; lia).
eexists. split; [reflexivity |]. split; [repeat split |].
intros ->. subst mixed. cbn [length firstn]. rewrite Nat.sub_0_r.
reflexivity.
Qed.

End WithEnv.

Lemma critical_request_drops_the_random_bytes_witness :
  let req :=
    Demo.post [("size"%string, JInt 4); ("purpose"%string, JStr "login");
               ("clientEntropy"%string, JStr " ")] in
  let other :=
    {| VIDEO_FILES := [];
       urandom_source := fun n => Bytes.of_Z (11 * Z.of_nat n + 5);
       system_source := fun _ => inl OSError;
       text_source := fun _ => [];
       shuffle_source := fun _ l => l;
       video_source := fun _ _ => (NoFile, 0%Q) |} in
  (exists w',
      get_seed Demo.env req RequestHandler
        (Demo.world (Demo.counting 200) 900 true)
      = Ret {| seed := "df3f6198";
               signature :=
                 hex (sha256 (slice_to (sha256 [x00; x00; x00; x00]) 4));
               prefetchDuringRefresh := true; fallback := false;
               error := None |} w')
  /\
  (exists w',
      get_seed other req RequestHandler
        (Demo.world (Demo.counting 200) 900 true)
      = Ret {| seed := "df3f6198";
               signature :=
                 hex (sha256 (slice_to (sha256 [x00; x00; x00; x00]) 4));
               prefetchDuringRefresh := true; fallback := false;
               error := None |} w').
Proof.
  intros req other. split.
  - destruct (@critical_request_drops_the_random_bytes Demo.env req
                [("size"%string, JInt 4); ("purpose"%string, JStr "login");
                 ("clientEntropy"%string, JStr " ")]
                4 " " [] RequestHandler
                (Demo.world (Demo.counting 200) 900 true))
      as (w' & Hrun & _);
      [reflexivity | reflexivity | reflexivity | reflexivity | reflexivity
      | discriminate | reflexivity | reflexivity |].
    exists w'. rewrite Hrun. vm_compute. reflexivity.
  - destruct (@critical_request_drops_the_random_bytes other req
                [("size"%string, JInt 4); ("purpose"%string, JStr "login");
                 ("clientEntropy"%string, JStr " ")]
                4 " " [] RequestHandler
                (Demo.world (Demo.counting 200) 900 true))
      as (w' & Hrun & _);
      [reflexivity | reflexivity | reflexivity | reflexivity | reflexivity
      | discriminate | reflexivity | reflexivity |].
    exists w'. rewrite Hrun. vm_compute. reflexivity.
Defined.

Lemma taking_waits_below_twice_the_size_witness :
  (exists w',
      generate_entropy_seed Demo.env 32 JNull RequestHandler
        (Demo.world (Demo.counting 40) 900 false) = Block w' /\
      entropy_lock w' = Some RequestHandler /\
      entropy_pool w' = Demo.counting 40)
  /\
  (exists w',
      generate_entropy_seed Demo.env 32 JNull RequestHandler
        (Demo.world (Demo.counting 10) 900 false) = Block w' /\
      entropy_lock w' = Some RequestHandler /\
      entropy_pool w' = Demo.counting 10).
Proof.
  split.
  - apply (proj1 (@taking_waits_below_twice_the_size Demo.env 32 JNull
                    RequestHandler (Demo.world (Demo.counting 40) 900 false)
                    eq_refl ltac:(lia))).
    vm_compute. reflexivity.
  - apply (proj1 (@taking_waits_below_twice_the_size Demo.env 32 JNull
                    RequestHandler (Demo.world (Demo.counting 10) 900 false)
                    eq_refl ltac:(lia))).
    vm_compute. reflexivity.
Defined.

End Guard.
